(** * A shallow embedding of the data-ingestion pipeline (backend/main.py)

    The development follows the source class by class: [FileDetector],
    [MetadataExtractor], [IngestionLogger] and [DataIngestionPipeline].

    What lies outside the program is gathered in a record [World]: the
    filesystem snapshot (existence tests, globbing, [stat], file contents),
    the libraries whose results the program only forwards (hashlib, pandas,
    the json parser) and the wall clock.  Every such operation may raise;
    an exception is represented by the text [str(e)] that the program
    captures.

    What the program persists is the [State]: the two JSON documents of the
    log directory (ingestion_history.json and ingestion_metadata.json) and
    the number of clock readings made so far.

    Modelling choices:
    - the plain-text diagnostic log written through [logging] is left out:
      no function reads it;
    - a directory listing is taken whole before the loop over it runs, so
      when both the listing and a test on one of its entries would raise,
      the message kept is the one of the listing;
    - the records hold JSON values only (column labels are strings), so
      [json.dump] accepts them, and writing a document of the log directory
      does not fail: the failures of the log store that are modelled are
      those of reading it back. *)

From Stdlib Require Import ZArith String Ascii List Lia.
From stdpp Require Import base option list gmap strings pretty.

Set Warnings "-register-all".

Local Open Scope string_scope.
Local Open Scope Z_scope.
Local Open Scope list_scope.

(** ** Exceptions *)

(** The outcome of an operation that may raise.  [Raise msg] stands for an
    exception [e] of class [Exception] with [str(e) = msg]. *)
Inductive result (A : Type) : Type :=
| Ok (a : A)
| Raise (msg : string).
Arguments Ok {A} a.
Arguments Raise {A} msg.

Definition result_bind {A B} (r : result A) (k : A → result B) : result B :=
  match r with
  | Ok a => k a
  | Raise e => Raise e
  end.

Declare Scope result_scope.
Delimit Scope result_scope with R.
Notation "x <- e ;; k" := (result_bind e (fun x => k))
  (at level 100, e at next level, right associativity) : result_scope.

(** [try: ... except Exception as e: ...] around a pure computation. *)
Definition try_except {A} (body : result A) (handler : string → A) : A :=
  match body with
  | Ok a => a
  | Raise e => handler e
  end.

(** ** JSON values *)

(** The values the program stores in its records.  A float is carried by
    its textual representation; the program never computes with one. *)
Inductive JVal : Type :=
| JNull
| JBool (b : bool)
| JInt (n : Z)
| JFloat (repr : string)
| JStr (s : string)
| JList (l : list JVal)
| JDict (d : list (string * JVal)).

(** A metadata record: a Python [dict] with string keys. *)
Abbreviation Dict := (gmap string JVal).

(** [key in d] *)
Definition has_key (k : string) (d : Dict) : bool :=
  match d !! k with
  | Some _ => true
  | None => false
  end.

(** [d.update(other)]: the keys of [other] win. *)
Definition dict_update (d other : Dict) : Dict := other ∪ d.

(** [d[k] = v] on a nested dictionary kept in insertion order. *)
Fixpoint assoc_set (k : string) (v : JVal) (d : list (string * JVal))
  : list (string * JVal) :=
  match d with
  | [] => [(k, v)]
  | (k', v') :: rest =>
      if String.eqb k k' then (k, v) :: rest else (k', v') :: assoc_set k v rest
  end.

(** ** Paths

    A [Path] is represented by its string form [str(path)].  [name] and
    [suffix] follow pathlib's pure-path definitions. *)

Fixpoint contains_char (c : ascii) (s : string) : bool :=
  match s with
  | EmptyString => false
  | String a r => Ascii.eqb a c || contains_char c r
  end.

(** [Path.name]: the final path component. *)
Fixpoint path_name (p : string) : string :=
  match p with
  | EmptyString => EmptyString
  | String a r =>
      if contains_char "/" p then path_name r else p
  end.

(** [str.rfind(c)] *)
Fixpoint rfind (c : ascii) (s : string) : option nat :=
  match s with
  | EmptyString => None
  | String a r =>
      match rfind c r with
      | Some i => Some (S i)
      | None => if Ascii.eqb a c then Some 0%nat else None
      end
  end.

(** [Path.suffix]: [name[i:]] for [i = name.rfind('.')] when
    [0 < i < len(name) - 1], and the empty string otherwise. *)
Definition path_suffix (p : string) : string :=
  let name := path_name p in
  match rfind "." name with
  | Some i =>
      if ((0 <? i) && (i <? String.length name - 1))%nat
      then substring i (String.length name - i) name
      else ""
  | None => ""
  end.

Definition ascii_lower (c : ascii) : ascii :=
  let n := nat_of_ascii c in
  if ((65 <=? n) && (n <=? 90))%nat then ascii_of_nat (n + 32) else c.

(** [str.lower()] on the ASCII letters. *)
Fixpoint lower (s : string) : string :=
  match s with
  | EmptyString => EmptyString
  | String c r => String (ascii_lower c) (lower r)
  end.

Definition str_in (s : string) (l : list string) : bool :=
  existsb (String.eqb s) l.

(** ** The world outside the program *)

(** [os.stat_result], with the two instants already rendered by
    [datetime.fromtimestamp(...).isoformat()]; [path_stat] below raises
    when the call or the rendering does. *)
Record Stat := {
  st_size : Z;
  st_ctime : string;
  st_mtime : string
}.

(** A pandas [DataFrame] as far as the program looks at it: [len(df)],
    [df.columns.tolist()] and [df.dtypes.astype(str).to_dict()]. *)
Record Frame := {
  nrows : nat;
  columns : list string;
  dtypes : list (string * string)
}.

(** One reading of the clock, in the two renderings the program uses:
    [isoformat()] and [strftime('%Y%m%d_%H%M%S')]. *)
Record Time := {
  isoformat : string;
  strftime : string
}.

Record World := {
  (* pathlib *)
  path_exists : string → result bool;
  path_is_dir : string → result bool;
  path_is_file : string → result bool;
  path_glob : string → string → result (list string);
  path_stat : string → result Stat;
  (* open(path, 'rb') and the whole content read from it *)
  open_rb : string → result string;
  (* hashlib.new(algorithm): the digest as a function of the chunks fed *)
  hashlib_new : string → result (list string → string);
  (* pandas *)
  read_csv : string → nat → result Frame;
  excel_sheet_names : string → result (list string);
  read_excel : string → string → option nat → result Frame;
  read_parquet : string → result Frame;
  (* open(path, 'r') followed by json.load *)
  json_load : string → result JVal;
  (* the n-th call of datetime.now() *)
  clock : nat → Time
}.

(** ** FileDetector *)

Module FileDetector.

Definition SUPPORTED_EXTENSIONS : list string :=
  [".csv"; ".xlsx"; ".xls"; ".json"; ".parquet"; ".txt"; ".tsv"].

(** [__init__]: [watch_directories or ['./data/incoming']] *)
Definition init (watch_directories : list string) : list string :=
  match watch_directories with
  | [] => ["./data/incoming"]
  | _ => watch_directories
  end.

Section Detect.
Variable w : World.
Local Open Scope result_scope.

(** The inner loop over [dir_path.glob(pattern)]. *)
Fixpoint keep_supported (found : list string) : result (list string) :=
  match found with
  | [] => Ok []
  | file_path :: rest =>
      is_file <- path_is_file w file_path;;
      let keep := is_file && str_in (lower (path_suffix file_path)) SUPPORTED_EXTENSIONS in
      kept <- keep_supported rest;;
      Ok (if keep then file_path :: kept else kept)
  end.

(** The body of the loop over [self.watch_directories]. *)
Definition scan_directory (recursive : bool) (directory : string)
  : result (list string) :=
  ex <- path_exists w directory;;
  if negb ex then Ok [] else
  isd <- path_is_dir w directory;;
  if negb isd then Ok [] else
  let pattern := if recursive then "**/*" else "*" in
  found <- path_glob w directory pattern;;
  keep_supported found.

Fixpoint scan_directories (recursive : bool) (dirs : list string)
  : result (list string) :=
  match dirs with
  | [] => Ok []
  | directory :: rest =>
      here <- scan_directory recursive directory;;
      there <- scan_directories recursive rest;;
      Ok (here ++ there)
  end.

Definition detect_files (watch_directories : list string) (recursive : bool)
  : result (list string) :=
  scan_directories recursive watch_directories.

End Detect.
End FileDetector.

(** ** Persisted state and the program monad *)

(** One entry of ingestion_history.json; the constructor is the 'event'. *)
Inductive Entry : Type :=
| ingestion_start (session_id timestamp : string) (files_detected : nat)
| file_processed (session_id timestamp file_path : string) (success : bool)
    (metadata : Dict)
| ingestion_complete (session_id timestamp : string)
    (processed_count failed_count : nat).


(** A JSON document of the log directory: the file does not exist, it
    holds a document of the shape the program writes, or [json.load]
    raises on it. *)
Inductive Doc (A : Type) : Type :=
| Missing
| Parsed (a : A)
| Malformed.
Arguments Missing {A}.
Arguments Parsed {A} a.
Arguments Malformed {A}.

Record State := {
  now_calls : nat;
  ingestion_log : Doc (list Entry);
  metadata_file : Doc (gmap string Dict)
}.

(** A computation that reads and writes the state and may raise.  As in
    Python, what was written before an exception stays written. *)
Definition M (A : Type) : Type := State → result A * State.

Definition ret {A} (a : A) : M A := fun st => (Ok a, st).

Definition bind {A B} (m : M A) (k : A → M B) : M B := fun st =>
  match m st with
  | (Ok a, st') => k a st'
  | (Raise e, st') => (Raise e, st')
  end.

(** A computation of the world alone. *)
Definition lift {A} (r : result A) : M A := fun st => (r, st).

(** [try: body except Exception as e: handler(str(e))] *)
Definition try_catch {A} (body : M A) (handler : string → M A) : M A :=
  fun st =>
    match body st with
    | (Ok a, st') => (Ok a, st')
    | (Raise e, st') => handler e st'
    end.

Declare Scope prog_scope.
Delimit Scope prog_scope with P.
Notation "x <- e ;; k" := (bind e (fun x => k))
  (at level 100, e at next level, right associativity) : prog_scope.
Notation "e ;;; k" := (bind e (fun _ => k))
  (at level 100, right associativity) : prog_scope.

(** [datetime.now()] *)
Definition datetime_now (w : World) : M Time := fun st =>
  (Ok (clock w (now_calls st)),
   {| now_calls := S (now_calls st);
      ingestion_log := ingestion_log st;
      metadata_file := metadata_file st |}).

(** ** MetadataExtractor *)

Module MetadataExtractor.
Section Extract.
Variable w : World.

(** [iter(lambda: f.read(4096), b"")]: the successive chunks of a file. *)
Fixpoint read_chunks (fuel : nat) (size : nat) (content : string) : list string :=
  match fuel with
  | O => []
  | S fuel' =>
      match content with
      | EmptyString => []
      | _ =>
          substring 0 size content
            :: read_chunks fuel' size
                 (substring size (String.length content - size) content)
      end
  end.

Definition chunks (size : nat) (content : string) : list string :=
  read_chunks (String.length content) size content.

Definition _calculate_checksum (file_path : string) : result JVal :=
  (hash_func <- hashlib_new w "md5";;
   Ok (try_except
         (content <- open_rb w file_path;;
          Ok (JStr (hash_func (chunks 4096 content))))
         (fun e => JNull)))%R.

(** [sum(1 for _ in f)] on a file opened in binary mode: the lines end at
    each byte 10, and a last line without one still counts. *)
Fixpoint count_lines_from (pending : bool) (content : string) : nat :=
  match content with
  | EmptyString => if pending then 1%nat else 0%nat
  | String c rest =>
      if Ascii.eqb c "010" then S (count_lines_from false rest)
      else count_lines_from true rest
  end.

Definition count_lines (content : string) : nat := count_lines_from false content.

Definition column_names (df : Frame) : JVal := JList (JStr <$> columns df).
Definition data_types (df : Frame) : JVal :=
  JDict ((fun '(c, t) => (c, JStr t)) <$> dtypes df).

Definition _extract_csv_metadata (file_path : string) : Dict :=
  try_except
    (df_sample <- read_csv w file_path 5;;
     content <- open_rb w file_path;;
     let row_count := Z.of_nat (count_lines content) - 1 in
     Ok (list_to_map
           [("row_count", JInt row_count);
            ("column_count", JInt (Z.of_nat (length (columns df_sample))));
            ("column_names", column_names df_sample);
            ("data_types", data_types df_sample)] : Dict))%R
    (fun e => {["csv_error" := JStr e]}).

(** The loop over the sheets in [_extract_excel_metadata]. *)
Fixpoint excel_sheets_info (file_path : string) (sheets : list string)
    (sheets_info : list (string * JVal)) : result (list (string * JVal)) :=
  match sheets with
  | [] => Ok sheets_info
  | sheet :: rest =>
      (df <- read_excel w file_path sheet (Some 5%nat);;
       full <- read_excel w file_path sheet None;;
       excel_sheets_info file_path rest
         (assoc_set sheet
            (JDict [("row_count", JInt (Z.of_nat (nrows full)));
                    ("column_count", JInt (Z.of_nat (length (columns df))));
                    ("column_names", column_names df);
                    ("data_types", data_types df)])
            sheets_info))%R
  end.

Definition _extract_excel_metadata (file_path : string) : Dict :=
  try_except
    (sheet_names <- excel_sheet_names w file_path;;
     sheets_info <- excel_sheets_info file_path sheet_names [];;
     Ok (list_to_map
           [("sheet_count", JInt (Z.of_nat (length sheet_names)));
            ("sheet_names", JList (JStr <$> sheet_names));
            ("sheets_info", JDict sheets_info)] : Dict))%R
    (fun e => {["excel_error" := JStr e]}).

(** [type(data).__name__] for a value that is neither a list nor a dict. *)
Definition type_name (data : JVal) : string :=
  match data with
  | JNull => "NoneType"
  | JBool _ => "bool"
  | JInt _ => "int"
  | JFloat _ => "float"
  | JStr _ => "str"
  | JList _ => "list"
  | JDict _ => "dict"
  end.

Definition _extract_json_metadata (file_path : string) : Dict :=
  try_except
    (data <- json_load w file_path;;
     Ok (match data with
         | JList l =>
             list_to_map
               [("json_type", JStr "array");
                ("record_count", JInt (Z.of_nat (length l)));
                ("sample_keys",
                  match l with
                  | JDict d :: _ => JList (JStr <$> (fst <$> d))
                  | _ => JNull
                  end)]
         | JDict d =>
             list_to_map
               [("json_type", JStr "object");
                ("top_level_keys", JList (JStr <$> (fst <$> d)))]
         | _ => {["json_type" := JStr (type_name data)]}
         end : Dict))%R
    (fun e => {["json_error" := JStr e]}).

Definition _extract_parquet_metadata (file_path : string) : Dict :=
  try_except
    (df <- read_parquet w file_path;;
     Ok (list_to_map
           [("row_count", JInt (Z.of_nat (nrows df)));
            ("column_count", JInt (Z.of_nat (length (columns df))));
            ("column_names", column_names df);
            ("data_types", data_types df)] : Dict))%R
    (fun e => {["parquet_error" := JStr e]}).

(** The format-specific part: [metadata.update(...)] of the branch chosen
    by the lowercased suffix, or nothing. *)
Definition format_metadata (file_path : string) : Dict :=
  let ext := lower (path_suffix file_path) in
  if str_in ext [".csv"; ".tsv"] then _extract_csv_metadata file_path
  else if str_in ext [".xlsx"; ".xls"] then _extract_excel_metadata file_path
  else if String.eqb ext ".json" then _extract_json_metadata file_path
  else if String.eqb ext ".parquet" then _extract_parquet_metadata file_path
  else ∅.

(** The record an extraction that raised is replaced by. *)
Definition error_record (file_path e extraction_time : string) : Dict :=
  list_to_map
    [("file_path", JStr file_path);
     ("error", JStr e);
     ("extraction_time", JStr extraction_time)].

Definition base_metadata (file_path : string) (size : Z)
    (created modified : string) (checksum : JVal) (extraction_time : string)
  : Dict :=
  list_to_map
    [("file_path", JStr file_path);
     ("file_name", JStr (path_name file_path));
     ("file_size", JInt size);
     ("file_extension", JStr (lower (path_suffix file_path)));
     ("created_time", JStr created);
     ("modified_time", JStr modified);
     ("checksum", checksum);
     ("extraction_time", JStr extraction_time)].

(** The [try] block of [extract_metadata]. *)
Definition extract_metadata_body (file_path : string) : M Dict :=
  (s_size <- lift (path_stat w file_path);;
   s_ctime <- lift (path_stat w file_path);;
   s_mtime <- lift (path_stat w file_path);;
   checksum <- lift (_calculate_checksum file_path);;
   now <- datetime_now w;;
   let metadata :=
     base_metadata file_path (st_size s_size) (st_ctime s_ctime)
       (st_mtime s_mtime) checksum (isoformat now) in
   ret (dict_update metadata (format_metadata file_path)))%P.

Definition extract_metadata (file_path : string) : M Dict :=
  try_catch (extract_metadata_body file_path)
    (fun e =>
       (now <- datetime_now w;;
        ret (error_record file_path e (isoformat now)))%P).

End Extract.
End MetadataExtractor.

(** ** IngestionLogger *)

Module IngestionLogger.

(** [json.load] of ingestion_history.json, after the [exists()] test. *)
Definition load_log : M (list Entry) := fun st =>
  match ingestion_log st with
  | Missing => (Ok [], st)
  | Parsed log_data => (Ok log_data, st)
  | Malformed => (Raise "JSONDecodeError", st)
  end.

Definition dump_log (log_data : list Entry) : M unit := fun st =>
  (Ok tt,
   {| now_calls := now_calls st;
      ingestion_log := Parsed log_data;
      metadata_file := metadata_file st |}).

Definition _append_to_log (entry : Entry) : M unit :=
  try_catch
    (log_data <- load_log;;
     dump_log (log_data ++ [entry]))%P
    (fun e => ret tt).

(** [json.load] of ingestion_metadata.json, after the [exists()] test. *)
Definition load_metadata : M (gmap string Dict) := fun st =>
  match metadata_file st with
  | Missing => (Ok ∅, st)
  | Parsed all_metadata => (Ok all_metadata, st)
  | Malformed => (Raise "JSONDecodeError", st)
  end.

Definition dump_metadata (all_metadata : gmap string Dict) : M unit := fun st =>
  (Ok tt,
   {| now_calls := now_calls st;
      ingestion_log := ingestion_log st;
      metadata_file := Parsed all_metadata |}).

(** The key under which [all_metadata[file_key] = metadata] followed by
    [json.dump] leaves the record: a string as it is, another scalar as
    the json encoder writes a key of its type; a list or a dict is not
    hashable. *)
Definition json_key (v : JVal) : result string :=
  match v with
  | JStr s => Ok s
  | JInt n => Ok (pretty n)
  | JFloat r => Ok r
  | JBool true => Ok "true"
  | JBool false => Ok "false"
  | JNull => Ok "null"
  | JList _ | JDict _ => Raise "TypeError: unhashable type"
  end.

(** [metadata.get('file_path', 'unknown')] *)
Definition file_key_of (metadata : Dict) : JVal :=
  default (JStr "unknown") (metadata !! "file_path").

Definition _store_metadata (metadata : Dict) : M unit :=
  try_catch
    (all_metadata <- load_metadata;;
     file_key <- lift (json_key (file_key_of metadata));;
     dump_metadata (<[file_key := metadata]> all_metadata))%P
    (fun e => ret tt).

Section Logging.
Variable w : World.
Local Open Scope prog_scope.

Definition log_ingestion_start (session_id : string) (files_detected : nat)
  : M unit :=
  now <- datetime_now w;;
  _append_to_log (ingestion_start session_id (isoformat now) files_detected).

Definition log_file_processed (session_id file_path : string)
    (metadata : Dict) (success : bool) : M unit :=
  now <- datetime_now w;;
  _append_to_log
    (file_processed session_id (isoformat now) file_path success metadata);;;
  if success then _store_metadata metadata else ret tt.

Definition log_ingestion_complete (session_id : string)
    (processed_count failed_count : nat) : M unit :=
  now <- datetime_now w;;
  _append_to_log
    (ingestion_complete session_id (isoformat now) processed_count failed_count).

End Logging.

(** [log_data[-limit:] if limit else log_data] *)
Definition last_entries (limit : Z) (log_data : list Entry) : list Entry :=
  if limit =? 0 then log_data
  else if 0 <? limit
       then drop (length log_data - Z.to_nat limit) log_data
       else drop (Z.to_nat (- limit)) log_data.

Definition get_ingestion_history (limit : Z) : M (list Entry) :=
  try_catch
    (fun st =>
       match ingestion_log st with
       | Missing => (Ok [], st)
       | Parsed log_data => (Ok (last_entries limit log_data), st)
       | Malformed => (Raise "JSONDecodeError", st)
       end)
    (fun e => ret []).

(** What [get_file_metadata] answers: one record, for a path that is
    given and not empty, or the whole table. *)
Inductive Answer : Type :=
| one_record (metadata : Dict)
| whole_table (all_metadata : gmap string Dict).

Definition truthy (file_path : option string) : option string :=
  match file_path with
  | Some EmptyString => None
  | _ => file_path
  end.

(** The empty dict [{}] that stands for "nothing". *)
Definition nothing (file_path : option string) : Answer :=
  match truthy file_path with
  | Some _ => one_record ∅
  | None => whole_table ∅
  end.

Definition get_file_metadata (file_path : option string) : M Answer :=
  try_catch
    (fun st =>
       match metadata_file st with
       | Missing => (Ok (nothing file_path), st)
       | Parsed all_metadata =>
           (Ok (match truthy file_path with
                | Some p => one_record (default ∅ (all_metadata !! p))
                | None => whole_table all_metadata
                end), st)
       | Malformed => (Raise "JSONDecodeError", st)
       end)
    (fun e => ret (nothing file_path)).

End IngestionLogger.

(** ** DataIngestionPipeline *)

Module DataIngestionPipeline.
Import IngestionLogger.

(** One element of the summary's 'results'. *)
Inductive FileResult : Type :=
| extracted (file_path : string) (success : bool) (metadata : Dict)
| crashed (file_path : string) (error : string).

(** The local variables of the loop of [run_ingestion]. *)
Record Tally := {
  processed : nat;
  failed : nat;
  outcomes : list FileResult
}.

(** The dictionary [run_ingestion] returns; the summary of a run that
    failed as a whole has an 'error' and no 'results'. *)
Record Summary := {
  session_id : string;
  error : option string;
  total_files : nat;
  processed_count : nat;
  failed_count : nat;
  results : option (list FileResult)
}.

Section Run.
Variable w : World.
Variable watch_directories : list string.
Local Open Scope prog_scope.

(** The [try] block inside the loop, for one file. *)
Definition process_file_body (session_id file_path : string) (t : Tally)
  : M Tally :=
  metadata <- MetadataExtractor.extract_metadata w file_path;;
  let success := negb (has_key "error" metadata) in
  log_file_processed w session_id file_path metadata success;;;
  ret {| processed := if success then S (processed t) else processed t;
         failed := if success then failed t else S (failed t);
         outcomes := (outcomes t ++ [extracted file_path success metadata]) |}.

(** The [except] block inside the loop.  Nothing in the [try] block can
    raise after a counter was incremented, so the handler starts from the
    counters the iteration started with. *)
Definition process_file_handler (file_path : string) (t : Tally) (e : string)
  : M Tally :=
  ret {| processed := processed t;
         failed := S (failed t);
         outcomes :=
           (outcomes t
              ++ [crashed file_path
                    ("Unexpected error processing " +:+ file_path +:+ ": " +:+ e)]) |}.

(** One iteration of the loop. *)
Definition process_file (session_id file_path : string) (t : Tally) : M Tally :=
  try_catch (process_file_body session_id file_path t)
    (process_file_handler file_path t).

Fixpoint process_files (session_id : string) (files : list string) (t : Tally)
  : M Tally :=
  match files with
  | [] => ret t
  | file_path :: rest =>
      t' <- process_file session_id file_path t;;
      process_files session_id rest t'
  end.

Definition run_ingestion (recursive : bool) : M Summary :=
  now <- datetime_now w;;
  let session_id := "ingestion_" +:+ strftime now in
  try_catch
    (detected_files <-
       lift (FileDetector.detect_files w
               (FileDetector.init watch_directories) recursive);;
     log_ingestion_start w session_id (length detected_files);;;
     t <- process_files session_id detected_files
            {| processed := 0; failed := 0; outcomes := [] |};;
     log_ingestion_complete w session_id (processed t) (failed t);;;
     ret {| session_id := session_id;
            error := None;
            total_files := length detected_files;
            processed_count := processed t;
            failed_count := failed t;
            results := Some (outcomes t) |})
    (fun e =>
       ret {| session_id := session_id;
              error := Some e;
              total_files := 0;
              processed_count := 0;
              failed_count := 0;
              results := None |}).

End Run.
End DataIngestionPipeline.

(** ** Observations and sequences of operations *)

(** The whole history, as [get_ingestion_history] with a falsy limit
    returns it. *)
Definition doc_entries (d : Doc (list Entry)) : list Entry :=
  match d with
  | Parsed log_data => log_data
  | _ => []
  end.

Definition history (st : State) : list Entry := doc_entries (ingestion_log st).

(** The whole metadata table, as [get_file_metadata()] returns it. *)
Definition doc_table (d : Doc (gmap string Dict)) : gmap string Dict :=
  match d with
  | Parsed all_metadata => all_metadata
  | _ => ∅
  end.

Definition table (st : State) : gmap string Dict := doc_table (metadata_file st).

Definition readable {A} (d : Doc A) : Prop := d ≠ Malformed.

(** The operations a caller of the module performs on a log directory:
    runs of a pipeline, each in the world it finds, and the two queries. *)
Inductive Op : Type :=
| op_run (w : World) (watch_directories : list string) (recursive : bool)
| op_history (limit : Z)
| op_metadata (file_path : option string).

Definition exec (st : State) (o : Op) : State :=
  match o with
  | op_run w dirs recursive =>
      snd (DataIngestionPipeline.run_ingestion w dirs recursive st)
  | op_history limit => snd (IngestionLogger.get_ingestion_history limit st)
  | op_metadata file_path => snd (IngestionLogger.get_file_metadata file_path st)
  end.

Definition exec_all (st : State) (ops : list Op) : State := foldl exec st ops.







(** Whether an element of 'results' reports a success. *)
Definition succeeded (r : DataIngestionPipeline.FileResult) : bool :=
  match r with
  | DataIngestionPipeline.extracted _ success _ => success
  | DataIngestionPipeline.crashed _ _ => false
  end.

(** The lowercased suffix the extractor dispatches on. *)
Definition extension (file_path : string) : string := lower (path_suffix file_path).




(** How often a path occurs in a detection result. *)
Definition occurrences (p : string) (l : list string) : nat :=
  length (filter (fun q => q = p) l).

(** ** Invariants of the metadata table *)

(** Every record is stored under its own 'file_path'. *)
Definition keyed_by_path (m : gmap string Dict) : Prop :=
  ∀ k r, m !! k = Some r → r !! "file_path" = Some (JStr k).


(** The keys of the record a full extraction starts from, and the key
    that marks a failed one. *)
Definition base_keys : list string :=
  ["file_path"; "file_name"; "file_size"; "file_extension"; "created_time";
   "modified_time"; "checksum"; "extraction_time"; "error"].

(** The extraction of a file replaces the whole record by an error-shaped
    one exactly when [stat] raises or no hasher can be made. *)
Definition extraction_error (w : World) (file_path : string) : option string :=
  match path_stat w file_path with
  | Raise e => Some e
  | Ok _ =>
      match hashlib_new w "md5" with
      | Raise e => Some e
      | Ok _ => None
      end
  end.

(** ** Closed forms

    Each function of the program is equal to a closed form: it returns
    normally, with a result and a final state that are given explicitly
    below.  The theorems about the program are read off these forms. *)

Definition tick (st : State) : State :=
  {| now_calls := S (now_calls st);
     ingestion_log := ingestion_log st;
     metadata_file := metadata_file st |}.

Definition with_log (f : Doc (list Entry) → Doc (list Entry)) (st : State) : State :=
  {| now_calls := now_calls st;
     ingestion_log := f (ingestion_log st);
     metadata_file := metadata_file st |}.

Definition with_metadata (f : Doc (gmap string Dict) → Doc (gmap string Dict))
    (st : State) : State :=
  {| now_calls := now_calls st;
     ingestion_log := ingestion_log st;
     metadata_file := f (metadata_file st) |}.

Definition doc_append (entry : Entry) (d : Doc (list Entry)) : Doc (list Entry) :=
  match d with
  | Missing => Parsed [entry]
  | Parsed log_data => Parsed (log_data ++ [entry])
  | Malformed => Malformed
  end.

Definition doc_store (metadata : Dict) (d : Doc (gmap string Dict))
  : Doc (gmap string Dict) :=
  match IngestionLogger.json_key (IngestionLogger.file_key_of metadata), d with
  | Ok k, Missing => Parsed (<[k := metadata]> ∅)
  | Ok k, Parsed all_metadata => Parsed (<[k := metadata]> all_metadata)
  | _, _ => d
  end.

Section ClosedForms.
Import DataIngestionPipeline.
Variable w : World.

(** The record [extract_metadata] returns when the clock is read for the
    [n]-th time. *)
Definition record_of (file_path : string) (n : nat) : Dict :=
  let extraction_time := isoformat (clock w n) in
  match path_stat w file_path with
  | Raise e => MetadataExtractor.error_record file_path e extraction_time
  | Ok s =>
      match MetadataExtractor._calculate_checksum w file_path with
      | Raise e => MetadataExtractor.error_record file_path e extraction_time
      | Ok checksum =>
          dict_update
            (MetadataExtractor.base_metadata file_path (st_size s) (st_ctime s)
               (st_mtime s) checksum extraction_time)
            (MetadataExtractor.format_metadata w file_path)
      end
  end.

Definition after_start (session_id : string) (n : nat) (st : State) : State :=
  with_log
    (doc_append (ingestion_start session_id (isoformat (clock w (now_calls st))) n))
    (tick st).

Definition after_complete (session_id : string) (p f : nat) (st : State) : State :=
  with_log
    (doc_append
       (ingestion_complete session_id (isoformat (clock w (now_calls st))) p f))
    (tick st).

Definition logged_entry (session_id file_path : string) (metadata : Dict)
    (success : bool) (st : State) : Entry :=
  file_processed session_id (isoformat (clock w (now_calls st))) file_path
    success metadata.

Definition after_logged (session_id file_path : string) (metadata : Dict)
    (success : bool) (st : State) : State :=
  let logged :=
    with_log (doc_append (logged_entry session_id file_path metadata success st))
      (tick st) in
  if success then with_metadata (doc_store metadata) logged else logged.

Definition tally_step (file_path : string) (metadata : Dict) (t : Tally) : Tally :=
  let success := negb (has_key "error" metadata) in
  {| processed := if success then S (processed t) else processed t;
     failed := if success then failed t else S (failed t);
     outcomes := outcomes t ++ [extracted file_path success metadata] |}.

Definition after_file (session_id file_path : string) (st : State) : State :=
  let metadata := record_of file_path (now_calls st) in
  after_logged session_id file_path metadata (negb (has_key "error" metadata))
    (tick st).

Fixpoint after_files (session_id : string) (files : list string) (st : State)
  : State :=
  match files with
  | [] => st
  | file_path :: rest =>
      after_files session_id rest (after_file session_id file_path st)
  end.

Fixpoint tally_files (files : list string) (t : Tally) (session_id : string)
    (st : State) : Tally :=
  match files with
  | [] => t
  | file_path :: rest =>
      tally_files rest
        (tally_step file_path (record_of file_path (now_calls st)) t)
        session_id (after_file session_id file_path st)
  end.


Definition tally0 : Tally := {| processed := 0; failed := 0; outcomes := [] |}.



Definition session_of (st : State) : string :=
  "ingestion_" +:+ strftime (clock w (now_calls st)).

Variable watch_directories : list string.

Definition detected (recursive : bool) : result (list string) :=
  FileDetector.detect_files w (FileDetector.init watch_directories) recursive.

Definition summary_of (recursive : bool) (st : State) : Summary :=
  let sid := session_of st in
  match detected recursive with
  | Raise e =>
      {| session_id := sid; error := Some e; total_files := 0;
         processed_count := 0; failed_count := 0; results := None |}
  | Ok files =>
      let t := tally_files files tally0 sid
                 (after_start sid (length files) (tick st)) in
      {| session_id := sid; error := None; total_files := length files;
         processed_count := processed t; failed_count := failed t;
         results := Some (outcomes t) |}
  end.

Definition after_run (recursive : bool) (st : State) : State :=
  let sid := session_of st in
  match detected recursive with
  | Raise e => tick st
  | Ok files =>
      let st1 := after_start sid (length files) (tick st) in
      let t := tally_files files tally0 sid st1 in
      after_complete sid (processed t) (failed t) (after_files sid files st1)
  end.

End ClosedForms.

(** A record without its extraction time. *)
Definition strip (record : Dict) : Dict := delete "extraction_time" record.

(** What a run does to the table for one detected file, extraction times
    left out: the record of the file is stored unless its extraction
    failed. *)
Definition restore (w : World) (T : gmap string Dict) (p : string)
  : gmap string Dict :=
  match extraction_error w p with
  | Some _ => T
  | None => <[p := strip (record_of w p 0)]> T
  end.

(** ** Scenarios

    Concrete worlds and states on which the program is run. *)

Module Scenario.

Definition nl : string := String "010" EmptyString.

(** A stand-in digest: the length of what was fed. *)
Definition toy_digest (fed : list string) : string :=
  "len-" +:+ pretty (String.length (String.concat "" fed)).

(** Successive readings of a clock that advances between any two. *)
Definition ticking (n : nat) : Time :=
  {| isoformat := "2024-05-01T10:00:00." +:+ pretty n;
     strftime := "20240501_1000" +:+ pretty n |}.


Fixpoint find_file (files : list (string * result string)) (p : string)
  : option (result string) :=
  match files with
  | [] => None
  | (q, c) :: rest => if String.eqb p q then Some c else find_file rest p
  end.

(** A world with one watched directory [dir] that holds [files], each with
    its content or the error that reading it raises; [frames] is what
    pandas makes of a delimited file and [docs] what the json parser makes
    of a file. *)
Definition disk (dir : string) (files : list (string * result string))
    (frames : string → result Frame) (docs : string → result JVal)
    (time : nat → Time) : World :=
  {| path_exists := fun d => Ok (String.eqb d dir);
     path_is_dir := fun d => Ok (String.eqb d dir);
     path_is_file := fun p => Ok (bool_decide (is_Some (find_file files p)));
     path_glob := fun d pattern =>
       Ok (if String.eqb d dir then fst <$> files else []);
     path_stat := fun p =>
       match find_file files p with
       | Some (Ok content) =>
           Ok {| st_size := Z.of_nat (String.length content);
                 st_ctime := "2024-04-30T09:00:00";
                 st_mtime := "2024-04-30T09:30:00" |}
       | Some (Raise _) =>
           Ok {| st_size := 0;
                 st_ctime := "2024-04-30T09:00:00";
                 st_mtime := "2024-04-30T09:30:00" |}
       | None => Raise "[Errno 2] No such file or directory"
       end;
     open_rb := fun p =>
       match find_file files p with
       | Some c => c
       | None => Raise "[Errno 2] No such file or directory"
       end;
     hashlib_new := fun algorithm => Ok toy_digest;
     read_csv := fun p n => frames p;
     excel_sheet_names := fun p => Raise "not a workbook";
     read_excel := fun p sheet n => Raise "not a workbook";
     read_parquet := fun p => Raise "not a parquet file";
     json_load := docs;
     clock := time |}.

Definition incoming : string := "data/incoming".
Definition a_csv : string := "data/incoming/a.csv".
Definition b_json : string := "data/incoming/b.json".
Definition notes_txt : string := "data/incoming/notes.txt".

(** a.csv: a header and three data rows, every line terminated. *)
Definition a_csv_content : string :=
  "id,name" +:+ nl +:+ "1,a" +:+ nl +:+ "2,b" +:+ nl +:+ "3,c" +:+ nl.


Definition dq : string := String "034" EmptyString.

(** b.json: an array of two records with the key x. *)
Definition b_json_content : string :=
  "[{" +:+ dq +:+ "x" +:+ dq +:+ ":1},{" +:+ dq +:+ "x" +:+ dq +:+ ":2}]".

Definition id_name : Frame :=
  {| nrows := 3;
     columns := ["id"; "name"];
     dtypes := [("id", "int64"); ("name", "object")] |}.

Definition two_records : JVal :=
  JList [JDict [("x", JInt 1)]; JDict [("x", JInt 2)]].

(** The watched directory holds a.csv and b.json. *)
Definition demo : World :=
  disk incoming [(a_csv, Ok a_csv_content); (b_json, Ok b_json_content)]
    (fun p => Ok id_name) (fun p => Ok two_records) ticking.


(** a.csv is there but pandas cannot parse it. *)
Definition bad_csv : World :=
  disk incoming [(a_csv, Ok "")]
    (fun p => Raise "No columns to parse from file")
    (fun p => Raise "no json") ticking.

(** notes.txt is there, [stat] answers, but it cannot be opened. *)
Definition unreadable_txt : World :=
  disk incoming [(notes_txt, Raise "[Errno 13] Permission denied")]
    (fun p => Raise "no csv") (fun p => Raise "no json") ticking.

(** The watched directory cannot be examined at all. *)
Definition forbidden : World :=
  {| path_exists := fun d => Raise "[Errno 13] Permission denied";
     path_is_dir := fun d => Raise "[Errno 13] Permission denied";
     path_is_file := fun p => Raise "[Errno 13] Permission denied";
     path_glob := fun d pattern => Raise "[Errno 13] Permission denied";
     path_stat := fun p => Raise "[Errno 13] Permission denied";
     open_rb := fun p => Raise "[Errno 13] Permission denied";
     hashlib_new := fun algorithm => Ok toy_digest;
     read_csv := fun p n => Raise "[Errno 13] Permission denied";
     excel_sheet_names := fun p => Raise "[Errno 13] Permission denied";
     read_excel := fun p sheet n => Raise "[Errno 13] Permission denied";
     read_parquet := fun p => Raise "[Errno 13] Permission denied";
     json_load := fun p => Raise "[Errno 13] Permission denied";
     clock := ticking |}.

Definition gone_csv : string := "data/incoming/gone.csv".

(** gone.csv is listed by the directory but is no longer there when
    [stat] is called. *)
Definition vanished : World :=
  {| path_exists := fun d => Ok (String.eqb d incoming);
     path_is_dir := fun d => Ok (String.eqb d incoming);
     path_is_file := fun p => Ok true;
     path_glob := fun d pattern => Ok [gone_csv];
     path_stat := fun p => Raise "[Errno 2] No such file or directory";
     open_rb := fun p => Raise "[Errno 2] No such file or directory";
     hashlib_new := fun algorithm => Ok toy_digest;
     read_csv := fun p n => Raise "[Errno 2] No such file or directory";
     excel_sheet_names := fun p => Raise "[Errno 2] No such file or directory";
     read_excel := fun p sheet n => Raise "[Errno 2] No such file or directory";
     read_parquet := fun p => Raise "[Errno 2] No such file or directory";
     json_load := fun p => Raise "[Errno 2] No such file or directory";
     clock := ticking |}.


(** An empty log directory. *)
Definition fresh : State :=
  {| now_calls := 0; ingestion_log := Missing; metadata_file := Missing |}.

(** A log directory whose history cannot be parsed. *)
Definition damaged : State :=
  {| now_calls := 0; ingestion_log := Malformed; metadata_file := Missing |}.

Definition demo_run : Op := op_run demo [incoming] false.

End Scenario.

(** ** The HTTP endpoints (backend/api.py)

    The endpoints that only call into the pipeline and the log store.
    [upload_files] writes into the watched directory before it runs the
    pipeline and is not modelled. *)

Module Api.

(** What an endpoint answers: the JSON body it returns, or the
    [HTTPException] with status 500 it raises. *)
Inductive Response (A : Type) : Type :=
| http_200 (body : A)
| http_500 (detail : string).
Arguments http_200 {A} body.
Arguments http_500 {A} detail.

(** The body [{"success": ..., <key>: payload}]. *)
Record Body (A : Type) := {
  success : bool;
  payload : A
}.
Arguments success {A} _.
Arguments payload {A} _.

(** [UPLOAD_DIR = Path("data/incoming")]; the module-level pipeline watches
    [str(UPLOAD_DIR)]. *)
Definition UPLOAD_DIR : string := "data/incoming".

Section Endpoints.
Variable w : World.
(** What constructing [IngestionLogger("./logs")] does: it creates the
    log directory and the handlers of the diagnostic log, or raises. *)
Variable new_logger : result unit.
Local Open Scope prog_scope.

Definition get_metadata : M (Response (Body IngestionLogger.Answer)) :=
  try_catch
    (lift new_logger;;;
     metadata <- IngestionLogger.get_file_metadata None;;
     ret (http_200 {| success := true; payload := metadata |}))
    (fun e => ret (http_500 ("Failed to get metadata: " +:+ e))).

Definition get_ingestion_logs (limit : Z) : M (Response (Body (list Entry))) :=
  try_catch
    (lift new_logger;;;
     logs <- IngestionLogger.get_ingestion_history limit;;
     ret (http_200 {| success := true; payload := logs |}))
    (fun e => ret (http_500 ("Failed to get logs: " +:+ e))).

Definition trigger_ingestion
  : M (Response (Body DataIngestionPipeline.Summary)) :=
  try_catch
    (results <- DataIngestionPipeline.run_ingestion w [UPLOAD_DIR] false;;
     ret (http_200 {| success := true; payload := results |}))
    (fun e => ret (http_500 ("Ingestion failed: " +:+ e))).

End Endpoints.
End Api.

(** ** Notions used to state what the functions do *)

(** The glob pattern [detect_files] uses. *)
Definition pattern_of (recursive : bool) : string :=
  if recursive then "**/*" else "*".

(** A listed path that [detect_files] keeps. *)
Definition kept_by (w : World) (p : string) : Prop :=
  path_is_file w p = Ok true
  ∧ str_in (extension p) FileDetector.SUPPORTED_EXTENSIONS = true.

(** A configured directory that [detect_files] skips. *)
Definition skipped (w : World) (d : string) : Prop :=
  path_exists w d = Ok false
  ∨ (path_exists w d = Ok true ∧ path_is_dir w d = Ok false).

(** The eight keys of the record of a full extraction. *)
Definition base_fields : gset string :=
  list_to_set ["file_path"; "file_name"; "file_size"; "file_extension";
               "created_time"; "modified_time"; "checksum"; "extraction_time"].

Definition csv_fields : gset string :=
  list_to_set ["row_count"; "column_count"; "column_names"; "data_types"].

(** What [_extract_excel_metadata] records for one sheet: the row count of
    the full read, the columns of the sample. *)
Definition sheet_info (sample full : Frame) : JVal :=
  JDict [("row_count", JInt (Z.of_nat (nrows full)));
         ("column_count", JInt (Z.of_nat (length (columns sample))));
         ("column_names", MetadataExtractor.column_names sample);
         ("data_types", MetadataExtractor.data_types sample)].


(** ** Further scenarios *)

Module Examples.

Definition copy_csv : string := "data/incoming/copy.csv".

(** The watched directory holds a.csv and a copy of it under another
    name. *)
Definition twins : World :=
  Scenario.disk Scenario.incoming
    [(Scenario.a_csv, Ok Scenario.a_csv_content);
     (copy_csv, Ok Scenario.a_csv_content)]
    (fun p => Ok Scenario.id_name) (fun p => Raise "no json") Scenario.ticking.

Definition book_xlsx : string := "data/incoming/book.xlsx".

(** A sheet with the columns month and total and the given number of
    rows. *)
Definition quarter (rows : nat) : Frame :=
  {| nrows := rows;
     columns := ["month"; "total"];
     dtypes := [("month", "object"); ("total", "float64")] |}.

(** The watched directory holds book.xlsx, whose sheets are read as
    [reads] says. *)
Definition with_workbook (sheets : list string)
    (reads : string → option nat → result Frame) : World :=
  {| path_exists := fun d => Ok (String.eqb d Scenario.incoming);
     path_is_dir := fun d => Ok (String.eqb d Scenario.incoming);
     path_is_file := fun p => Ok (String.eqb p book_xlsx);
     path_glob := fun d pattern => Ok [book_xlsx];
     path_stat := fun p =>
       Ok {| st_size := 9000;
             st_ctime := "2024-04-30T09:00:00";
             st_mtime := "2024-04-30T09:30:00" |};
     open_rb := fun p => Ok "PK";
     hashlib_new := fun algorithm => Ok Scenario.toy_digest;
     read_csv := fun p n => Raise "not a delimited file";
     excel_sheet_names := fun p => Ok sheets;
     read_excel := fun p sheet n => reads sheet n;
     read_parquet := fun p => Raise "not a parquet file";
     json_load := fun p => Raise "no json";
     clock := Scenario.ticking |}.

(** Two sheets of 12 and 40 rows; a read limited to five rows returns
    five. *)
Definition sample_of (sheet : string) : Frame := quarter 5.
Definition full_of (sheet : string) : Frame :=
  quarter (if String.eqb sheet "Q1" then 12 else 40).

Definition workbook : World :=
  with_workbook ["Q1"; "Q2"]
    (fun sheet n =>
       match n with
       | Some _ => Ok (sample_of sheet)
       | None => Ok (full_of sheet)
       end).

(** The same workbook, the second sheet of which cannot be read in
    full. *)
Definition torn_workbook : World :=
  with_workbook ["Q1"; "Q2"]
    (fun sheet n =>
       match n with
       | Some _ => Ok (sample_of sheet)
       | None =>
           if String.eqb sheet "Q1" then Ok (full_of sheet)
           else Raise "File is not a zip file"
       end).

End Examples.

(** The sets of fields a format branch can add to a record. *)
Definition format_shapes : list (gset string) :=
  [∅;
   csv_fields;
   {["csv_error"]};
   list_to_set ["sheet_count"; "sheet_names"; "sheets_info"];
   {["excel_error"]};
   list_to_set ["json_type"; "record_count"; "sample_keys"];
   list_to_set ["json_type"; "top_level_keys"];
   {["json_type"]};
   {["json_error"]};
   {["parquet_error"]}].

(** ** Reading a file in chunks *)

Lemma substring_whole s : substring 0 (String.length s) s = s.
Proof. induction s as [|c r IH]; cbn; [reflexivity | by rewrite IH]. Qed.

Lemma substring_split s : ∀ n,
  substring 0 n s +:+ substring n (String.length s - n) s = s.
Proof.
  induction s as [|c r IH]; intros [|n]; cbn; try reflexivity.
  - by rewrite substring_whole.
  - change (String c (substring 0 n r +:+ substring n (String.length r - n) r)
            = String c r).
    f_equal. apply IH.
Qed.

Lemma length_substring_rest s : ∀ n,
  String.length (substring n (String.length s - n) s) = (String.length s - n)%nat.
Proof.
  induction s as [|c r IH]; intros [|n]; cbn; try reflexivity.
  - by rewrite substring_whole.
  - apply IH.
Qed.

Lemma concat_cons_empty (chunk : string) (more : list string) :
  String.concat "" (chunk :: more) = chunk +:+ String.concat "" more.
Proof.
  destruct more as [|m more]; cbn [String.concat].
  - induction chunk as [|c r IH]; [reflexivity|].
    change (String c r = String c (r +:+ "")). by rewrite <- IH.
  - reflexivity.
Qed.

(** The fuel of [chunks] is enough: the chunks of a file, put together,
    are the file. *)
Lemma read_chunks_concat size fuel : ∀ content,
  (0 < size)%nat → (String.length content ≤ fuel)%nat →
  String.concat "" (MetadataExtractor.read_chunks fuel size content) = content.
Proof.
  induction fuel as [|fuel IH]; intros content Hsize Hlen.
  - destruct content; [reflexivity | cbn in Hlen; lia].
  - destruct content as [|c r]; [reflexivity|].
    remember (String c r) as content eqn:Hc.
    assert (MetadataExtractor.read_chunks (S fuel) size content
            = substring 0 size content
                :: MetadataExtractor.read_chunks fuel size
                     (substring size (String.length content - size) content))
      as -> by (subst content; reflexivity).
    rewrite concat_cons_empty, IH; [apply substring_split | done |].
    rewrite length_substring_rest. subst content. cbn in Hlen. cbn. lia.
Qed.

Lemma chunks_concat content :
  String.concat "" (MetadataExtractor.chunks 4096 content) = content.
Proof. apply read_chunks_concat; lia. Qed.

(** ** The observations are what the queries return *)

Lemma get_ingestion_history_all st :
  fst (IngestionLogger.get_ingestion_history 0 st) = Ok (history st).
Proof.
  unfold IngestionLogger.get_ingestion_history, try_catch, ret, history.
  destruct (ingestion_log st); reflexivity.
Qed.

Lemma get_file_metadata_all st :
  fst (IngestionLogger.get_file_metadata None st)
  = Ok (IngestionLogger.whole_table (table st)).
Proof.
  unfold IngestionLogger.get_file_metadata, try_catch, ret, table.
  destruct (metadata_file st); reflexivity.
Qed.

(** ** The program equals its closed forms *)

Section Evaluation.
Import DataIngestionPipeline.
Variable w : World.

Lemma extract_metadata_eval file_path st :
  MetadataExtractor.extract_metadata w file_path st
  = (Ok (record_of w file_path (now_calls st)), tick st).
Proof.
  unfold MetadataExtractor.extract_metadata, MetadataExtractor.extract_metadata_body,
    record_of, try_catch, bind, lift, ret, datetime_now, tick.
  destruct (path_stat w file_path) as [s|e]; [|reflexivity].
  destruct (MetadataExtractor._calculate_checksum w file_path) as [c|e];
    reflexivity.
Qed.

Lemma append_to_log_eval entry st :
  IngestionLogger._append_to_log entry st = (Ok tt, with_log (doc_append entry) st).
Proof.
  unfold IngestionLogger._append_to_log, IngestionLogger.load_log,
    IngestionLogger.dump_log, try_catch, bind, ret, with_log.
  destruct st as [n [|l|] m]; reflexivity.
Qed.

Lemma store_metadata_eval metadata st :
  IngestionLogger._store_metadata metadata st
  = (Ok tt, with_metadata (doc_store metadata) st).
Proof.
  unfold IngestionLogger._store_metadata, IngestionLogger.load_metadata,
    IngestionLogger.dump_metadata, try_catch, bind, ret, lift, with_metadata,
    doc_store.
  destruct st as [n l [|m|]]; cbn;
    destruct (IngestionLogger.json_key (IngestionLogger.file_key_of metadata));
    reflexivity.
Qed.

Lemma log_ingestion_start_eval session_id n st :
  IngestionLogger.log_ingestion_start w session_id n st
  = (Ok tt, after_start w session_id n st).
Proof.
  unfold IngestionLogger.log_ingestion_start, bind, datetime_now.
  rewrite append_to_log_eval. reflexivity.
Qed.

Lemma log_ingestion_complete_eval session_id p f st :
  IngestionLogger.log_ingestion_complete w session_id p f st
  = (Ok tt, after_complete w session_id p f st).
Proof.
  unfold IngestionLogger.log_ingestion_complete, bind, datetime_now.
  rewrite append_to_log_eval. reflexivity.
Qed.

Lemma log_file_processed_eval session_id file_path metadata success st :
  IngestionLogger.log_file_processed w session_id file_path metadata success st
  = (Ok tt, after_logged w session_id file_path metadata success st).
Proof.
  unfold IngestionLogger.log_file_processed, bind, datetime_now, after_logged,
    logged_entry.
  rewrite append_to_log_eval.
  destruct success; [apply store_metadata_eval | reflexivity].
Qed.

Lemma process_file_eval session_id file_path t st :
  process_file w session_id file_path t st
  = (Ok (tally_step file_path (record_of w file_path (now_calls st)) t),
     after_file w session_id file_path st).
Proof.
  unfold process_file, process_file_body, try_catch, bind.
  rewrite extract_metadata_eval, log_file_processed_eval. reflexivity.
Qed.

Lemma process_files_eval session_id files : ∀ t st,
  process_files w session_id files t st
  = (Ok (tally_files w files t session_id st), after_files w session_id files st).
Proof.
  induction files as [|file_path rest IH]; intros t st; [reflexivity|].
  cbn [process_files tally_files after_files]. unfold bind.
  rewrite process_file_eval. apply IH.
Qed.

Lemma run_ingestion_eval watch_directories recursive st :
  run_ingestion w watch_directories recursive st
  = (Ok (summary_of w watch_directories recursive st),
     after_run w watch_directories recursive st).
Proof.
  unfold run_ingestion, summary_of, after_run, detected, session_of, bind,
    try_catch, lift, datetime_now.
  fold (tick st).
  destruct (FileDetector.detect_files w (FileDetector.init watch_directories)
              recursive) as [files|e]; [|reflexivity].
  rewrite log_ingestion_start_eval, process_files_eval,
    log_ingestion_complete_eval.
  reflexivity.
Qed.

End Evaluation.

(** ** The counters of a run *)

Section Counters.
Import DataIngestionPipeline.
Variable w : World.

Lemma tally_step_count file_path metadata t :
  (processed (tally_step file_path metadata t)
   + failed (tally_step file_path metadata t)
   = S (processed t + failed t))%nat.
Proof.
  unfold tally_step. destruct (negb (has_key "error" metadata)); cbn; lia.
Qed.

Lemma tally_files_count session_id files : ∀ t st,
  (processed (tally_files w files t session_id st)
   + failed (tally_files w files t session_id st)
   = processed t + failed t + length files)%nat.
Proof.
  induction files as [|file_path rest IH]; intros t st; cbn [tally_files length].
  - lia.
  - rewrite IH, tally_step_count. lia.
Qed.

End Counters.

(** C1. A run of [run_ingestion] always returns a summary.  When detection
    returned normally, the summary has no 'error', its total_files is the
    number of detected files and processed_count + failed_count equals
    total_files.  When an exception escaped the per-file loop (detection
    raised), the summary carries that error and its three counts are 0. *)
Theorem run_ingestion_summary_counts
    (w : World) (watch_directories : list string) (recursive : bool) (st : State) :
  ∃ s st',
    DataIngestionPipeline.run_ingestion w watch_directories recursive st = (Ok s, st')
    ∧ match FileDetector.detect_files w (FileDetector.init watch_directories)
              recursive with
      | Ok files =>
          DataIngestionPipeline.error s = None
          ∧ DataIngestionPipeline.total_files s = length files
          ∧ (DataIngestionPipeline.processed_count s
             + DataIngestionPipeline.failed_count s
             = DataIngestionPipeline.total_files s)%nat
      | Raise e =>
          DataIngestionPipeline.error s = Some e
          ∧ DataIngestionPipeline.total_files s = 0%nat
          ∧ DataIngestionPipeline.processed_count s = 0%nat
          ∧ DataIngestionPipeline.failed_count s = 0%nat
      end.
Proof.
  eexists _, _. split; [apply run_ingestion_eval|].
  unfold summary_of, detected.
  destruct (FileDetector.detect_files w (FileDetector.init watch_directories)
              recursive) as [files|e]; cbn.
  - split; [reflexivity|]. split; [reflexivity|].
    rewrite tally_files_count. reflexivity.
  - repeat split.
Qed.

(** ** Facts about the extracted records *)

Section Records.
Variable w : World.

Ltac branch_cases :=
  unfold MetadataExtractor.format_metadata,
    MetadataExtractor._extract_csv_metadata,
    MetadataExtractor._extract_excel_metadata,
    MetadataExtractor._extract_json_metadata,
    MetadataExtractor._extract_parquet_metadata, try_except, result_bind;
  repeat case_match; simplify_eq; reflexivity.

(** No format branch writes a key of the base record, nor 'error'. *)
Lemma format_metadata_base_keys file_path k :
  k ∈ base_keys → MetadataExtractor.format_metadata w file_path !! k = None.
Proof.
  unfold base_keys. intros Hk.
  repeat (apply elem_of_cons in Hk as [->|Hk]; [branch_cases|]).
  by apply elem_of_nil in Hk.
Qed.

Lemma calculate_checksum_error file_path :
  match MetadataExtractor._calculate_checksum w file_path with
  | Ok _ => ∃ h, hashlib_new w "md5" = Ok h
  | Raise e => hashlib_new w "md5" = Raise e
  end.
Proof.
  unfold MetadataExtractor._calculate_checksum, result_bind.
  destruct (hashlib_new w "md5"); eauto.
Qed.

Lemma record_of_cases file_path n :
  match extraction_error w file_path with
  | Some e =>
      record_of w file_path n
      = MetadataExtractor.error_record file_path e (isoformat (clock w n))
  | None =>
      ∃ s checksum,
        path_stat w file_path = Ok s
        ∧ MetadataExtractor._calculate_checksum w file_path = Ok checksum
        ∧ record_of w file_path n
          = dict_update
              (MetadataExtractor.base_metadata file_path (st_size s) (st_ctime s)
                 (st_mtime s) checksum (isoformat (clock w n)))
              (MetadataExtractor.format_metadata w file_path)
  end.
Proof.
  unfold extraction_error, record_of.
  pose proof (calculate_checksum_error file_path) as Hc.
  destruct (path_stat w file_path) as [s|e]; [|reflexivity].
  destruct (MetadataExtractor._calculate_checksum w file_path) as [c|e].
  - destruct Hc as [h ->]. eauto.
  - rewrite Hc. reflexivity.
Qed.

(** A key of the base record is read from the base record. *)
Lemma lookup_full_record file_path k base :
  k ∈ base_keys →
  dict_update base (MetadataExtractor.format_metadata w file_path) !! k
  = base !! k.
Proof.
  intros Hk. unfold dict_update.
  rewrite lookup_union_r; [reflexivity|].
  by apply format_metadata_base_keys.
Qed.

Lemma record_of_file_path file_path n :
  record_of w file_path n !! "file_path" = Some (JStr file_path).
Proof.
  pose proof (record_of_cases file_path n) as H.
  destruct (extraction_error w file_path) as [e|].
  - rewrite H. reflexivity.
  - destruct H as (s & c & _ & _ & ->).
    rewrite lookup_full_record; [reflexivity|].
    unfold base_keys. set_solver.
Qed.

Lemma record_of_has_error file_path n :
  has_key "error" (record_of w file_path n)
  = bool_decide (is_Some (extraction_error w file_path)).
Proof.
  pose proof (record_of_cases file_path n) as H.
  destruct (extraction_error w file_path) as [e|].
  - rewrite H. rewrite bool_decide_eq_true_2 by eauto. reflexivity.
  - destruct H as (s & c & _ & _ & ->).
    rewrite bool_decide_eq_false_2 by (intros [? ?]; discriminate).
    unfold has_key. rewrite lookup_full_record; [reflexivity|].
    unfold base_keys. set_solver.
Qed.

Lemma record_of_key file_path n :
  IngestionLogger.json_key (IngestionLogger.file_key_of (record_of w file_path n))
  = Ok file_path.
Proof.
  unfold IngestionLogger.file_key_of. rewrite record_of_file_path. reflexivity.
Qed.

End Records.

(** ** Facts about the persisted documents *)

Lemma doc_cases {A} (d : Doc A) : d = Malformed ∨ readable d.
Proof. unfold readable. destruct d; eauto; right; discriminate. Qed.

Lemma readable_append entry d : readable d → readable (doc_append entry d).
Proof. unfold readable. destruct d; cbn; congruence. Qed.

Lemma entries_append entry d :
  readable d → doc_entries (doc_append entry d) = doc_entries d ++ [entry].
Proof. unfold readable. destruct d; cbn; congruence. Qed.

Lemma unreadable_append entry : doc_append entry Malformed = Malformed.
Proof. reflexivity. Qed.

Lemma readable_store metadata d : readable d → readable (doc_store metadata d).
Proof.
  unfold readable, doc_store.
  destruct (IngestionLogger.json_key _), d; cbn; congruence.
Qed.

Lemma table_store metadata d k :
  readable d →
  IngestionLogger.json_key (IngestionLogger.file_key_of metadata) = Ok k →
  doc_table (doc_store metadata d) = <[k := metadata]> (doc_table d).
Proof.
  unfold readable, doc_store. intros Hd ->. destruct d; cbn; congruence.
Qed.

Lemma table_store_unreadable metadata d :
  ¬ readable d → doc_store metadata d = d.
Proof.
  unfold readable, doc_store. intros Hd.
  destruct (IngestionLogger.json_key _), d; try reflexivity;
    exfalso; apply Hd; discriminate.
Qed.

Section States.
Variable w : World.

Lemma log_after_file session_id file_path st :
  ingestion_log (after_file w session_id file_path st)
  = doc_append
      (logged_entry w session_id file_path (record_of w file_path (now_calls st))
         (negb (has_key "error" (record_of w file_path (now_calls st))))
         (tick st))
      (ingestion_log st).
Proof.
  unfold after_file, after_logged.
  destruct (negb (has_key "error" _)); reflexivity.
Qed.

Lemma metadata_after_file session_id file_path st :
  metadata_file (after_file w session_id file_path st)
  = if has_key "error" (record_of w file_path (now_calls st))
    then metadata_file st
    else doc_store (record_of w file_path (now_calls st)) (metadata_file st).
Proof.
  unfold after_file, after_logged.
  destruct (has_key "error" _); reflexivity.
Qed.

Lemma now_calls_after_file session_id file_path st :
  now_calls (after_file w session_id file_path st) = S (S (now_calls st)).
Proof.
  unfold after_file, after_logged.
  destruct (negb (has_key "error" _)); reflexivity.
Qed.



Lemma unreadable_log_after_files session_id files : ∀ st,
  ingestion_log st = Malformed →
  ingestion_log (after_files w session_id files st) = Malformed.
Proof.
  induction files as [|p rest IH]; intros st Hr; cbn [after_files]; [done|].
  apply IH. rewrite log_after_file, Hr. reflexivity.
Qed.


(** A property of the metadata document that every store of a record
    without 'error' keeps is kept by the whole loop. *)
Lemma metadata_after_files_ind (P : Doc (gmap string Dict) → Prop) session_id :
  (∀ p n d, P d → has_key "error" (record_of w p n) = false →
            P (doc_store (record_of w p n) d)) →
  ∀ files st, P (metadata_file st) →
              P (metadata_file (after_files w session_id files st)).
Proof.
  intros Hstep. induction files as [|p rest IH]; intros st HP;
    cbn [after_files]; [done|].
  apply IH. rewrite metadata_after_file.
  destruct (has_key "error" _) eqn:He; [done|]. by apply Hstep.
Qed.

Lemma metadata_after_run_ind (P : Doc (gmap string Dict) → Prop) dirs recursive :
  (∀ p n d, P d → has_key "error" (record_of w p n) = false →
            P (doc_store (record_of w p n) d)) →
  ∀ st, P (metadata_file st) →
        P (metadata_file (after_run w dirs recursive st)).
Proof.
  intros Hstep st HP. unfold after_run.
  destruct (detected w dirs recursive) as [files|e]; [|done].
  cbn. by apply metadata_after_files_ind.
Qed.

End States.

Lemma get_ingestion_history_state limit st :
  snd (IngestionLogger.get_ingestion_history limit st) = st.
Proof.
  unfold IngestionLogger.get_ingestion_history, try_catch, ret.
  destruct (ingestion_log st); reflexivity.
Qed.

Lemma get_file_metadata_state file_path st :
  snd (IngestionLogger.get_file_metadata file_path st) = st.
Proof.
  unfold IngestionLogger.get_file_metadata, try_catch, ret.
  destruct (metadata_file st); reflexivity.
Qed.

Lemma exec_metadata_ind (P : Doc (gmap string Dict) → Prop) :
  (∀ w p n d, P d → has_key "error" (record_of w p n) = false →
              P (doc_store (record_of w p n) d)) →
  ∀ o st, P (metadata_file st) → P (metadata_file (exec st o)).
Proof.
  intros Hstep [w dirs recursive|limit|file_path] st HP; cbn [exec].
  - rewrite run_ingestion_eval. cbn [snd].
    apply metadata_after_run_ind; [apply Hstep | done].
  - by rewrite get_ingestion_history_state.
  - by rewrite get_file_metadata_state.
Qed.

Lemma exec_all_metadata_ind (P : Doc (gmap string Dict) → Prop) :
  (∀ w p n d, P d → has_key "error" (record_of w p n) = false →
              P (doc_store (record_of w p n) d)) →
  ∀ ops st, P (metadata_file st) → P (metadata_file (exec_all st ops)).
Proof.
  intros Hstep. unfold exec_all.
  induction ops as [|o rest IH]; intros st HP; cbn [foldl]; [done|].
  apply IH. by apply exec_metadata_ind.
Qed.

(** ** The metadata table *)


Lemma keyed_by_path_store w p n d :
  keyed_by_path (doc_table d) →
  keyed_by_path (doc_table (doc_store (record_of w p n) d)).
Proof.
  intros Hinv.
  destruct (doc_cases d) as [->|Hd];
    [by rewrite table_store_unreadable by (intros H; by apply H)|].
  rewrite (table_store _ _ p) by (done || apply record_of_key).
  intros k r. rewrite lookup_insert.
  case_decide; [intros [= <-]; subst; apply record_of_file_path | apply Hinv].
Qed.


Lemma keyed_by_path_store_record metadata k d :
  metadata !! "file_path" = Some (JStr k) →
  keyed_by_path (doc_table d) →
  keyed_by_path (doc_table (doc_store metadata d)).
Proof.
  intros Hk Hinv.
  destruct (doc_cases d) as [->|Hd];
    [by rewrite table_store_unreadable by (intros H; by apply H)|].
  rewrite (table_store _ _ k)
    by (done || (unfold IngestionLogger.file_key_of; by rewrite Hk)).
  intros k' r. rewrite lookup_insert.
  case_decide; [intros [= <-]; by subst | apply Hinv].
Qed.

(** C9. Every operation keeps the invariant that each record of the
    metadata table is stored under its own 'file_path': every run of the
    pipeline and every query, and also [log_file_processed] called with
    any record that has a 'file_path'.  So [get_file_metadata] asked for a
    path that is present answers with a record whose 'file_path' is that
    path. *)
Theorem metadata_table_keyed_by_path
    (st : State) (ops : list Op) (w : World) (session_id file_path : string)
    (metadata : Dict) (success : bool) (k : string) :
  keyed_by_path (table st) →
  keyed_by_path (table (exec_all st ops))
  ∧ (∀ p r, p ≠ "" → table (exec_all st ops) !! p = Some r →
       fst (IngestionLogger.get_file_metadata (Some p) (exec_all st ops))
       = Ok (IngestionLogger.one_record r)
       ∧ r !! "file_path" = Some (JStr p))
  ∧ (metadata !! "file_path" = Some (JStr k) →
     keyed_by_path
       (table (snd (IngestionLogger.log_file_processed w session_id file_path
                      metadata success st)))).
Proof.
  intros Hinv.
  assert (keyed_by_path (table (exec_all st ops))) as Hafter.
  { unfold table.
    apply (exec_all_metadata_ind (fun d => keyed_by_path (doc_table d))); [|done].
    intros. by apply keyed_by_path_store. }
  split; [done|]. split.
  - intros p r Hp Hlook. split; [|by apply Hafter].
    unfold IngestionLogger.get_file_metadata, try_catch.
    unfold table, doc_table in Hlook.
    destruct (metadata_file (exec_all st ops)) as [|m|];
      try (rewrite lookup_empty in Hlook; discriminate).
    destruct p; [done|]. cbn. by rewrite Hlook.
  - intros Hk. rewrite log_file_processed_eval. cbn [snd].
    unfold after_logged, table. destruct success; cbn; [|done].
    by apply (keyed_by_path_store_record metadata k).
Qed.


Lemma metadata_table_keyed_by_path_witness :
  let after := exec_all Scenario.fresh [Scenario.demo_run] in
  let record : Dict := {["file_path" := JStr Scenario.notes_txt]} in
  keyed_by_path (table after)
  ∧ (∀ p r, p ≠ "" → table after !! p = Some r →
       fst (IngestionLogger.get_file_metadata (Some p) after)
       = Ok (IngestionLogger.one_record r)
       ∧ r !! "file_path" = Some (JStr p))
  ∧ keyed_by_path
      (table (snd (IngestionLogger.log_file_processed Scenario.demo
                     "ingestion_20240501_100000" Scenario.notes_txt record true
                     Scenario.fresh))).
Proof.
  intros after record.
  destruct (metadata_table_keyed_by_path Scenario.fresh [Scenario.demo_run]
              Scenario.demo "ingestion_20240501_100000" Scenario.notes_txt
              record true Scenario.notes_txt) as (Hinv & Hget & Hstore).
  { intros k r Hk. discriminate Hk. }
  split; [exact Hinv|]. split; [exact Hget|].
  apply Hstore. reflexivity.
Defined.

(** ** Which files count as processed *)

Section Outcomes.
Import DataIngestionPipeline.
Variable w : World.

Lemma tally_step_outcome file_path metadata t :
  outcomes (tally_step file_path metadata t)
  = outcomes t ++ [extracted file_path (negb (has_key "error" metadata)) metadata]
  ∧ (if has_key "error" metadata
     then processed (tally_step file_path metadata t) = processed t
          ∧ failed (tally_step file_path metadata t) = S (failed t)
     else processed (tally_step file_path metadata t) = S (processed t)
          ∧ failed (tally_step file_path metadata t) = failed t).
Proof. unfold tally_step. destruct (has_key "error" metadata); cbn; auto. Qed.

Lemma tally_files_outcomes session_id files : ∀ t st,
  ∃ rs,
    outcomes (tally_files w files t session_id st) = outcomes t ++ rs
    ∧ Forall2 (fun p r => ∃ md, r = extracted p (negb (has_key "error" md)) md)
        files rs
    ∧ processed (tally_files w files t session_id st)
      = (processed t + length (filter (fun r => succeeded r = true) rs))%nat
    ∧ failed (tally_files w files t session_id st)
      = (failed t + length (filter (fun r => succeeded r = false) rs))%nat.
Proof.
  induction files as [|p rest IH]; intros t st; cbn [tally_files].
  - exists []. rewrite app_nil_r. cbn. repeat split; (constructor || lia).
  - destruct (IH (tally_step p (record_of w p (now_calls st)) t)
                (after_file w session_id p st)) as (rs & Ho & Hf & Hp & Hq).
    set (md := record_of w p (now_calls st)) in *.
    exists (extracted p (negb (has_key "error" md)) md :: rs).
    destruct (tally_step_outcome p md t) as [Hout Hcnt].
    split; [by rewrite Ho, Hout, <- app_assoc|].
    split; [constructor; eauto|].
    rewrite Hp, Hq, !filter_cons. cbn [succeeded].
    destruct (has_key "error" md); destruct Hcnt as [-> ->]; cbn;
      repeat case_decide; try done; cbn; lia.
Qed.

(** What a format branch that failed leaves in the record. *)
Lemma format_metadata_failures file_path :
  let ext := extension file_path in
  (∀ e, str_in ext [".csv"; ".tsv"] = true →
        read_csv w file_path 5 = Raise e →
        MetadataExtractor.format_metadata w file_path = {["csv_error" := JStr e]})
  ∧ (∀ e, str_in ext [".csv"; ".tsv"] = false →
          str_in ext [".xlsx"; ".xls"] = true →
          excel_sheet_names w file_path = Raise e →
          MetadataExtractor.format_metadata w file_path
          = {["excel_error" := JStr e]})
  ∧ (∀ e, ext = ".json" → json_load w file_path = Raise e →
          MetadataExtractor.format_metadata w file_path
          = {["json_error" := JStr e]})
  ∧ (∀ e, ext = ".parquet" → read_parquet w file_path = Raise e →
          MetadataExtractor.format_metadata w file_path
          = {["parquet_error" := JStr e]}).
Proof.
  unfold extension, MetadataExtractor.format_metadata. cbn zeta.
  repeat split.
  - intros e -> He.
    unfold MetadataExtractor._extract_csv_metadata. by rewrite He.
  - intros e -> -> He.
    unfold MetadataExtractor._extract_excel_metadata. by rewrite He.
  - intros e -> He. cbn.
    unfold MetadataExtractor._extract_json_metadata. by rewrite He.
  - intros e -> He. cbn.
    unfold MetadataExtractor._extract_parquet_metadata. by rewrite He.
Qed.

Lemma checksum_unreadable file_path h e :
  hashlib_new w "md5" = Ok h → open_rb w file_path = Raise e →
  MetadataExtractor._calculate_checksum w file_path = Ok JNull.
Proof.
  intros Hh Ho. unfold MetadataExtractor._calculate_checksum.
  by rewrite Hh, Ho.
Qed.

(** The record of a file whose [stat] answers and that can be hashed. *)
Lemma record_of_full file_path n s h :
  path_stat w file_path = Ok s → hashlib_new w "md5" = Ok h →
  ∃ checksum,
    MetadataExtractor._calculate_checksum w file_path = Ok checksum
    ∧ record_of w file_path n
      = dict_update
          (MetadataExtractor.base_metadata file_path (st_size s) (st_ctime s)
             (st_mtime s) checksum (isoformat (clock w n)))
          (MetadataExtractor.format_metadata w file_path)
    ∧ has_key "error" (record_of w file_path n) = false.
Proof.
  intros Hs Hh.
  pose proof (record_of_cases w file_path n) as H.
  pose proof (record_of_has_error w file_path n) as He.
  unfold extraction_error in *. rewrite Hs, Hh in *.
  destruct H as (s' & c & [= <-] & Hc & Hrec).
  exists c. repeat split; [done..|].
  rewrite He. apply bool_decide_eq_false_2. intros [? ?]; discriminate.
Qed.

End Outcomes.

(** C3. The pipeline counts a file as processed exactly when the record
    [extract_metadata] returned for it has no top-level 'error' key, and
    as failed otherwise; the counts of a run are the numbers of such
    results.  In particular a csv/tsv file whose format branch failed, its
    base facts and checksum being there, has a record with 'csv_error' and
    without 'error', and is counted as processed. *)
Theorem processed_iff_no_error_key
    (w : World) (watch_directories : list string) (recursive : bool)
    (session_id file_path : string) (t : DataIngestionPipeline.Tally)
    (st : State) :
  (∃ record t' st',
     fst (MetadataExtractor.extract_metadata w file_path st) = Ok record
     ∧ DataIngestionPipeline.process_file w session_id file_path t st
       = (Ok t', st')
     ∧ DataIngestionPipeline.outcomes t'
       = DataIngestionPipeline.outcomes t
           ++ [DataIngestionPipeline.extracted file_path
                 (negb (has_key "error" record)) record]
     ∧ (if has_key "error" record
        then DataIngestionPipeline.processed t' = DataIngestionPipeline.processed t
             ∧ DataIngestionPipeline.failed t'
               = S (DataIngestionPipeline.failed t)
        else DataIngestionPipeline.processed t'
             = S (DataIngestionPipeline.processed t)
             ∧ DataIngestionPipeline.failed t' = DataIngestionPipeline.failed t))
  ∧ (∀ files,
       FileDetector.detect_files w (FileDetector.init watch_directories) recursive
       = Ok files →
       ∃ s rs,
         fst (DataIngestionPipeline.run_ingestion w watch_directories recursive st)
         = Ok s
         ∧ DataIngestionPipeline.results s = Some rs
         ∧ Forall2
             (fun p r =>
                ∃ md, r = DataIngestionPipeline.extracted p
                            (negb (has_key "error" md)) md)
             files rs
         ∧ DataIngestionPipeline.processed_count s
           = length (filter (fun r => succeeded r = true) rs)
         ∧ DataIngestionPipeline.failed_count s
           = length (filter (fun r => succeeded r = false) rs))
  ∧ (∀ s h e,
       path_stat w file_path = Ok s →
       hashlib_new w "md5" = Ok h →
       str_in (extension file_path) [".csv"; ".tsv"] = true →
       read_csv w file_path 5 = Raise e →
       ∃ record checksum t' st',
         fst (MetadataExtractor.extract_metadata w file_path st) = Ok record
         ∧ record !! "csv_error" = Some (JStr e)
         ∧ has_key "error" record = false
         ∧ record !! "file_path" = Some (JStr file_path)
         ∧ record !! "file_size" = Some (JInt (st_size s))
         ∧ record !! "created_time" = Some (JStr (st_ctime s))
         ∧ record !! "modified_time" = Some (JStr (st_mtime s))
         ∧ MetadataExtractor._calculate_checksum w file_path = Ok checksum
         ∧ record !! "checksum" = Some checksum
         ∧ DataIngestionPipeline.process_file w session_id file_path t st
           = (Ok t', st')
         ∧ DataIngestionPipeline.processed t'
           = S (DataIngestionPipeline.processed t)
         ∧ DataIngestionPipeline.failed t' = DataIngestionPipeline.failed t).
Proof.
  rewrite extract_metadata_eval, process_file_eval, run_ingestion_eval.
  cbn [fst].
  set (record := record_of w file_path (now_calls st)).
  destruct (tally_step_outcome file_path record t) as [Hout Hcnt].
  split; [by eexists _, _, _|]. split.
  - intros files Hfiles. unfold summary_of, detected. rewrite Hfiles.
    match goal with
    | |- context [tally_files w files tally0 ?sid ?st1] =>
        destruct (tally_files_outcomes w sid files tally0 st1)
          as (rs & Ho & Hf & Hp & Hq)
    end.
    eexists _, rs. cbn. rewrite Ho, Hp, Hq. by repeat split.
  - intros s h e Hs Hh Hext He.
    destruct (record_of_full w file_path (now_calls st) s h Hs Hh)
      as (c & Hc & Hrec & Herr).
    fold record in Hrec, Herr. rewrite Herr in Hcnt. destruct Hcnt as [Hp Hf].
    destruct (format_metadata_failures w file_path) as (Hcsv & _).
    exists record, c. eexists _, _.
    assert (∀ k, k ∈ base_keys →
              record !! k
              = MetadataExtractor.base_metadata file_path (st_size s) (st_ctime s)
                  (st_mtime s) c (isoformat (clock w (now_calls st))) !! k)
      as Hbase by (intros k Hk; rewrite Hrec; by apply lookup_full_record).
    split; [done|]. split.
    { rewrite Hrec, (Hcsv e) by done. reflexivity. }
    split; [done|].
    repeat (split; [rewrite Hbase by (unfold base_keys; set_solver); done
                   | try (split; [exact Hc|])]).
    by repeat split.
Qed.

Lemma processed_iff_no_error_key_witness :
  let w := Scenario.bad_csv in
  let p := Scenario.a_csv in
  ∃ record checksum t' st',
    fst (MetadataExtractor.extract_metadata w p Scenario.fresh) = Ok record
    ∧ record !! "csv_error" = Some (JStr "No columns to parse from file")
    ∧ has_key "error" record = false
    ∧ record !! "file_path" = Some (JStr p)
    ∧ record !! "file_size" = Some (JInt 0)
    ∧ record !! "created_time" = Some (JStr "2024-04-30T09:00:00")
    ∧ record !! "modified_time" = Some (JStr "2024-04-30T09:30:00")
    ∧ MetadataExtractor._calculate_checksum w p = Ok checksum
    ∧ record !! "checksum" = Some checksum
    ∧ DataIngestionPipeline.process_file w "ingestion_20240501_100000" p tally0
        Scenario.fresh
      = (Ok t', st')
    ∧ DataIngestionPipeline.processed t' = 1%nat
    ∧ DataIngestionPipeline.failed t' = 0%nat.
Proof.
  intros w p.
  destruct (processed_iff_no_error_key w [Scenario.incoming] false
              "ingestion_20240501_100000" p tally0 Scenario.fresh)
    as (_ & _ & Hcsv).
  apply (Hcsv {| st_size := 0; st_ctime := "2024-04-30T09:00:00";
                 st_mtime := "2024-04-30T09:30:00" |} Scenario.toy_digest
           "No columns to parse from file"); reflexivity.
Defined.

(** C10. When only the reading of the file for its checksum fails, the
    checksum helper returns null, the record carries checksum = null and
    no top-level 'error', the pipeline counts the file as processed and the
    record is written into the metadata table under the file's path. *)
Theorem null_checksum_counts_as_processed
    (w : World) (session_id file_path : string)
    (t : DataIngestionPipeline.Tally) (st : State) (s : Stat)
    (h : list string → string) (e : string) :
  path_stat w file_path = Ok s →
  hashlib_new w "md5" = Ok h →
  open_rb w file_path = Raise e →
  MetadataExtractor._calculate_checksum w file_path = Ok JNull
  ∧ ∃ record t' st',
      fst (MetadataExtractor.extract_metadata w file_path st) = Ok record
      ∧ record !! "checksum" = Some JNull
      ∧ has_key "error" record = false
      ∧ DataIngestionPipeline.process_file w session_id file_path t st
        = (Ok t', st')
      ∧ DataIngestionPipeline.processed t' = S (DataIngestionPipeline.processed t)
      ∧ DataIngestionPipeline.failed t' = DataIngestionPipeline.failed t
      ∧ (readable (metadata_file st) → table st' !! file_path = Some record).
Proof.
  intros Hs Hh Ho.
  pose proof (checksum_unreadable w file_path h e Hh Ho) as Hnull.
  split; [done|].
  rewrite extract_metadata_eval, process_file_eval. cbn [fst].
  set (record := record_of w file_path (now_calls st)).
  destruct (record_of_full w file_path (now_calls st) s h Hs Hh)
    as (c & Hc & Hrec & Herr).
  rewrite Hnull in Hc. injection Hc as <-.
  fold record in Hrec, Herr.
  destruct (tally_step_outcome file_path record t) as [_ Hcnt].
  rewrite Herr in Hcnt. destruct Hcnt as [Hp Hf].
  exists record. eexists _, _.
  split; [done|]. split.
  { rewrite Hrec, lookup_full_record by (unfold base_keys; set_solver). done. }
  split; [done|]. split; [done|]. split; [done|]. split; [done|].
  intros Hr. unfold table. rewrite metadata_after_file.
  fold record. rewrite Herr.
  rewrite (table_store _ _ file_path) by (done || apply record_of_key).
  apply lookup_insert_eq.
Qed.

Lemma null_checksum_counts_as_processed_witness :
  let w := Scenario.unreadable_txt in
  let p := Scenario.notes_txt in
  MetadataExtractor._calculate_checksum w p = Ok JNull
  ∧ ∃ record t' st',
      fst (MetadataExtractor.extract_metadata w p Scenario.fresh) = Ok record
      ∧ record !! "checksum" = Some JNull
      ∧ has_key "error" record = false
      ∧ DataIngestionPipeline.process_file w "ingestion_20240501_100000" p
          tally0 Scenario.fresh
        = (Ok t', st')
      ∧ DataIngestionPipeline.processed t' = 1%nat
      ∧ DataIngestionPipeline.failed t' = 0%nat
      ∧ table st' !! p = Some record.
Proof.
  intros w p.
  destruct (null_checksum_counts_as_processed w "ingestion_20240501_100000" p
              tally0 Scenario.fresh
              {| st_size := 0; st_ctime := "2024-04-30T09:00:00";
                 st_mtime := "2024-04-30T09:30:00" |}
              Scenario.toy_digest "[Errno 13] Permission denied")
    as (Hnull & record & t' & st' & H1 & H2 & H3 & H4 & H5 & H6 & Htable);
    [reflexivity..|].
  split; [exact Hnull|]. exists record, t', st'.
  repeat (split; [assumption|]).
  apply Htable. discriminate.
Defined.

(** ** What [extract_metadata] returns when a step fails *)

Lemma error_record_keys file_path e extraction_time :
  dom (MetadataExtractor.error_record file_path e extraction_time)
  = ({["file_path"; "error"; "extraction_time"]} : gset string).
Proof.
  unfold MetadataExtractor.error_record. cbn [list_to_map foldr].
  rewrite !dom_insert_L, dom_empty_L. set_solver.
Qed.

(** C4, as the code has it.  [extract_metadata] never propagates an
    exception.  When [stat] raises, or no hasher can be made for the
    checksum, it returns the error-shaped record: exactly the file path,
    the captured message and the extraction time.  A failure to read the
    file for its checksum, or of the format-specific parse, is caught where
    it happens: the record is the full one, without 'error', with
    checksum = null in the first case and with the error field of the
    branch in the second. *)
Theorem extract_metadata_never_raises (w : World) (file_path : string) (st : State) :
  ∃ record,
    MetadataExtractor.extract_metadata w file_path st = (Ok record, tick st)
    ∧ (∀ e, path_stat w file_path = Raise e →
            record = MetadataExtractor.error_record file_path e
                       (isoformat (clock w (now_calls st)))
            ∧ dom record = ({["file_path"; "error"; "extraction_time"]} : gset string))
    ∧ (∀ s e, path_stat w file_path = Ok s → hashlib_new w "md5" = Raise e →
              record = MetadataExtractor.error_record file_path e
                         (isoformat (clock w (now_calls st)))
              ∧ dom record
                = ({["file_path"; "error"; "extraction_time"]} : gset string))
    ∧ (∀ s h, path_stat w file_path = Ok s → hashlib_new w "md5" = Ok h →
              has_key "error" record = false
              ∧ record !! "file_path" = Some (JStr file_path)
              ∧ record !! "file_size" = Some (JInt (st_size s))
              ∧ (∀ e, open_rb w file_path = Raise e →
                      record !! "checksum" = Some JNull)
              ∧ (∀ e, str_in (extension file_path) [".csv"; ".tsv"] = true →
                      read_csv w file_path 5 = Raise e →
                      record !! "csv_error" = Some (JStr e))
              ∧ (∀ e, str_in (extension file_path) [".csv"; ".tsv"] = false →
                      str_in (extension file_path) [".xlsx"; ".xls"] = true →
                      excel_sheet_names w file_path = Raise e →
                      record !! "excel_error" = Some (JStr e))
              ∧ (∀ e, extension file_path = ".json" →
                      json_load w file_path = Raise e →
                      record !! "json_error" = Some (JStr e))
              ∧ (∀ e, extension file_path = ".parquet" →
                      read_parquet w file_path = Raise e →
                      record !! "parquet_error" = Some (JStr e))).
Proof.
  exists (record_of w file_path (now_calls st)).
  split; [apply extract_metadata_eval|].
  pose proof (record_of_cases w file_path (now_calls st)) as Hcases.
  unfold extraction_error in Hcases.
  split; [|split].
  - intros e He. rewrite He in Hcases. rewrite Hcases.
    split; [done | apply error_record_keys].
  - intros s e Hs He. rewrite Hs, He in Hcases. rewrite Hcases.
    split; [done | apply error_record_keys].
  - intros s h Hs Hh.
    destruct (record_of_full w file_path (now_calls st) s h Hs Hh)
      as (c & Hc & Hrec & Herr).
    destruct (format_metadata_failures w file_path) as (Hcsv & Hxl & Hjs & Hpq).
    split; [done|].
    split; [apply record_of_file_path|].
    split.
    { rewrite Hrec, lookup_full_record by (unfold base_keys; set_solver). done. }
    split.
    { intros e He. rewrite (checksum_unreadable w file_path h e Hh He) in Hc.
      injection Hc as <-.
      rewrite Hrec, lookup_full_record by (unfold base_keys; set_solver). done. }
    repeat split; intros e; intros.
    + rewrite Hrec, (Hcsv e) by done. reflexivity.
    + rewrite Hrec, (Hxl e) by done. reflexivity.
    + rewrite Hrec, (Hjs e) by done. reflexivity.
    + rewrite Hrec, (Hpq e) by done. reflexivity.
Qed.

Lemma extract_metadata_never_raises_witness :
  (∃ record,
     MetadataExtractor.extract_metadata Scenario.vanished Scenario.gone_csv
       Scenario.fresh
     = (Ok record, tick Scenario.fresh)
     ∧ record
       = MetadataExtractor.error_record Scenario.gone_csv
           "[Errno 2] No such file or directory" "2024-05-01T10:00:00.0"
     ∧ dom record = ({["file_path"; "error"; "extraction_time"]} : gset string))
  ∧ (∃ record,
       MetadataExtractor.extract_metadata Scenario.bad_csv Scenario.a_csv
         Scenario.fresh
       = (Ok record, tick Scenario.fresh)
       ∧ has_key "error" record = false
       ∧ record !! "csv_error" = Some (JStr "No columns to parse from file"))
  ∧ (∃ record,
       MetadataExtractor.extract_metadata Scenario.unreadable_txt
         Scenario.notes_txt Scenario.fresh
       = (Ok record, tick Scenario.fresh)
       ∧ has_key "error" record = false
       ∧ record !! "checksum" = Some JNull).
Proof.
  split; [|split].
  - destruct (extract_metadata_never_raises Scenario.vanished Scenario.gone_csv
                Scenario.fresh) as (record & Hrun & Hstat & _).
    exists record. split; [exact Hrun|].
    apply (Hstat "[Errno 2] No such file or directory"). reflexivity.
  - destruct (extract_metadata_never_raises Scenario.bad_csv Scenario.a_csv
                Scenario.fresh) as (record & Hrun & _ & _ & Hfull).
    destruct (Hfull {| st_size := 0; st_ctime := "2024-04-30T09:00:00";
                       st_mtime := "2024-04-30T09:30:00" |} Scenario.toy_digest)
      as (Herr & _ & _ & _ & Hcsv & _); [reflexivity..|].
    exists record. split; [exact Hrun|]. split; [exact Herr|].
    apply Hcsv; reflexivity.
  - destruct (extract_metadata_never_raises Scenario.unreadable_txt
                Scenario.notes_txt Scenario.fresh)
      as (record & Hrun & _ & _ & Hfull).
    destruct (Hfull {| st_size := 0; st_ctime := "2024-04-30T09:00:00";
                       st_mtime := "2024-04-30T09:30:00" |} Scenario.toy_digest)
      as (Herr & _ & _ & Hsum & _); [reflexivity..|].
    exists record. split; [exact Hrun|]. split; [exact Herr|].
    apply (Hsum "[Errno 13] Permission denied"). reflexivity.
Defined.

(** C4, as the claim has it, fails: in the world [Scenario.bad_csv] the
    format-specific parse of a.csv raises, and what [extract_metadata]
    returns is not an error-shaped record, whatever message and time the
    record is given. *)
Lemma parse_failure_is_not_error_shaped :
  read_csv Scenario.bad_csv Scenario.a_csv 5
  = Raise "No columns to parse from file"
  ∧ ∀ e extraction_time,
      fst (MetadataExtractor.extract_metadata Scenario.bad_csv Scenario.a_csv
             Scenario.fresh)
      ≠ Ok (MetadataExtractor.error_record Scenario.a_csv e extraction_time).
Proof.
  split; [reflexivity|].
  intros e extraction_time H. rewrite extract_metadata_eval in H. cbn [fst] in H.
  apply (f_equal (fun r => match r with
                          | Ok record => has_key "error" record
                          | Raise _ => true
                          end)) in H.
  vm_compute in H. discriminate H.
Qed.

(** ** File detection *)

Section Detection.
Variable w : World.

Lemma scan_directories_concat recursive : ∀ dirs found,
  Forall2 (fun d l => FileDetector.scan_directory w recursive d = Ok l) dirs found →
  FileDetector.scan_directories w recursive dirs = Ok (concat found).
Proof.
  induction 1 as [|d l dirs found Hd _ IH]; cbn; [reflexivity|].
  by rewrite Hd, IH.
Qed.

Lemma occurrences_app p l1 l2 :
  occurrences p (l1 ++ l2) = (occurrences p l1 + occurrences p l2)%nat.
Proof. unfold occurrences. by rewrite filter_app, length_app. Qed.

Lemma occurrences_concat p (found : list (list string)) :
  occurrences p (concat found) = sum_list_with (occurrences p) found.
Proof.
  induction found as [|l found IH]; cbn [concat sum_list_with]; [reflexivity|].
  by rewrite occurrences_app, IH.
Qed.

End Detection.

(** C5, as the code has it.  [detect_files] removes no duplicates: when
    every configured directory can be scanned, its result is the
    concatenation, in the order of the configuration, of what each
    directory yields.  A path found under n of the listed directories
    occurs n times in the result, and total_files counts every
    occurrence. *)
Theorem detect_files_concatenates
    (w : World) (watch_directories : list string) (recursive : bool)
    (found : list (list string)) (st : State) :
  Forall2 (fun d l => FileDetector.scan_directory w recursive d = Ok l)
    (FileDetector.init watch_directories) found →
  FileDetector.detect_files w (FileDetector.init watch_directories) recursive
  = Ok (concat found)
  ∧ (∀ p, occurrences p (concat found) = sum_list_with (occurrences p) found)
  ∧ ∃ s,
      fst (DataIngestionPipeline.run_ingestion w watch_directories recursive st)
      = Ok s
      ∧ DataIngestionPipeline.total_files s = sum_list_with length found.
Proof.
  intros Hscan.
  pose proof (scan_directories_concat w recursive _ _ Hscan) as Hdet.
  split; [exact Hdet|]. split; [intros p; apply occurrences_concat|].
  rewrite run_ingestion_eval. cbn [fst]. eexists; split; [reflexivity|].
  unfold summary_of, detected, FileDetector.detect_files. rewrite Hdet. cbn.
  clear. induction found as [|l found IH]; cbn; [reflexivity|].
  by rewrite length_app, IH.
Qed.

Lemma detect_files_concatenates_witness :
  let twice := [Scenario.incoming; Scenario.incoming] in
  let found := [[Scenario.a_csv; Scenario.b_json]; [Scenario.a_csv; Scenario.b_json]] in
  FileDetector.detect_files Scenario.demo (FileDetector.init twice) false
  = Ok (concat found)
  ∧ (∀ p, occurrences p (concat found) = sum_list_with (occurrences p) found)
  ∧ ∃ s,
      fst (DataIngestionPipeline.run_ingestion Scenario.demo twice false
             Scenario.fresh)
      = Ok s
      ∧ DataIngestionPipeline.total_files s = sum_list_with length found.
Proof.
  intros twice found.
  apply (detect_files_concatenates Scenario.demo twice false found Scenario.fresh).
  repeat constructor.
Defined.

(** C5, as the claim has it, fails: with the watched directory listed
    twice, each of its two files is detected twice, and the run reports
    four files. *)
Lemma detect_files_counts_twice :
  let twice := [Scenario.incoming; Scenario.incoming] in
  ∃ files s,
    FileDetector.detect_files Scenario.demo (FileDetector.init twice) false
    = Ok files
    ∧ files = [Scenario.a_csv; Scenario.b_json; Scenario.a_csv; Scenario.b_json]
    ∧ ¬ NoDup files
    ∧ fst (DataIngestionPipeline.run_ingestion Scenario.demo twice false
             Scenario.fresh)
      = Ok s
    ∧ DataIngestionPipeline.total_files s = 4%nat.
Proof.
  intros twice.
  exists [Scenario.a_csv; Scenario.b_json; Scenario.a_csv; Scenario.b_json].
  eexists.
  split; [reflexivity|]. split; [reflexivity|]. split.
  - apply (bool_decide_eq_false_1 (NoDup _)). vm_compute. reflexivity.
  - rewrite run_ingestion_eval. split; reflexivity.
Qed.

(** ** The row count of a delimited file *)






(** ** The history *)

Section History.
Variable w : World.




Lemma unreadable_after_run dirs recursive st :
  ingestion_log st = Malformed →
  ingestion_log (after_run w dirs recursive st) = Malformed.
Proof.
  intros Hm. unfold after_run.
  destruct (detected w dirs recursive) as [files|e]; cbn; [|done].
  rewrite unreadable_log_after_files; [reflexivity|].
  cbn. by rewrite Hm.
Qed.

End History.








(** ** Running twice *)

Section Rerun.
Variable w : World.

(** Two extractions of a file in the same world differ at most in the
    extraction time. *)
Lemma strip_record_of file_path n m :
  strip (record_of w file_path n) = strip (record_of w file_path m).
Proof.
  pose proof (record_of_cases w file_path n) as Hn.
  pose proof (record_of_cases w file_path m) as Hm.
  destruct (extraction_error w file_path) as [e|].
  - rewrite Hn, Hm. reflexivity.
  - destruct Hn as (s & c & Hs & Hc & ->).
    destruct Hm as (s' & c' & Hs' & Hc' & ->).
    rewrite Hs in Hs'. injection Hs' as <-.
    rewrite Hc in Hc'. injection Hc' as <-.
    unfold strip, dict_update. rewrite !delete_union. reflexivity.
Qed.

Lemma strip_table_after_file session_id file_path st :
  readable (metadata_file st) →
  readable (metadata_file (after_file w session_id file_path st))
  ∧ strip <$> table (after_file w session_id file_path st)
    = restore w (strip <$> table st) file_path.
Proof.
  intros Hr. unfold table, restore. rewrite metadata_after_file.
  rewrite record_of_has_error.
  destruct (extraction_error w file_path) as [e|].
  - rewrite bool_decide_eq_true_2 by eauto. done.
  - rewrite bool_decide_eq_false_2 by (intros [? ?]; discriminate).
    split; [by apply readable_store|].
    rewrite (table_store _ _ file_path) by (done || apply record_of_key).
    rewrite fmap_insert. f_equal. apply strip_record_of.
Qed.

Lemma strip_table_after_files session_id files : ∀ st,
  readable (metadata_file st) →
  readable (metadata_file (after_files w session_id files st))
  ∧ strip <$> table (after_files w session_id files st)
    = foldl (restore w) (strip <$> table st) files.
Proof.
  induction files as [|p rest IH]; intros st Hr; cbn [after_files foldl]; [done|].
  destruct (strip_table_after_file session_id p st Hr) as [Hr' <-].
  by apply IH.
Qed.








End Rerun.




(** ** More about file detection *)

Section DetectionFacts.
Variable w : World.

Lemma keep_supported_elem found : ∀ kept,
  FileDetector.keep_supported w found = Ok kept →
  kept `sublist_of` found ∧ ∀ p, p ∈ kept ↔ p ∈ found ∧ kept_by w p.
Proof.
  unfold kept_by, extension.
  induction found as [|q rest IH]; intros kept;
    cbn [FileDetector.keep_supported].
  - intros [= <-]. split; [done|]. intros p. split; [by intros ?%elem_of_nil|].
    by intros [?%elem_of_nil _].
  - unfold result_bind.
    destruct (path_is_file w q) as [b|e] eqn:Hq; [|done].
    destruct (FileDetector.keep_supported w rest) as [kept'|e]; [|done].
    destruct (IH kept' eq_refl) as [Hsub Hiff].
    destruct (b && str_in (lower (path_suffix q)) FileDetector.SUPPORTED_EXTENSIONS)
      eqn:Hkeep; intros [= <-].
    + apply andb_true_iff in Hkeep as [-> Hs].
      split; [by apply sublist_skip|]. intros p.
      rewrite !elem_of_cons, Hiff. split.
      * intros [->|[? ?]]; [by auto|by auto].
      * intros [[->|?] ?]; [by left | by right].
    + split; [by apply sublist_cons|]. intros p.
      rewrite elem_of_cons, Hiff. split; [by intros [? ?]; auto|].
      intros [[->|?] [Hf Hs]]; [|done].
      assert (b = true) as -> by congruence.
      cbn [andb] in Hkeep. congruence.
Qed.

Lemma scan_directory_skipped recursive d :
  skipped w d → FileDetector.scan_directory w recursive d = Ok [].
Proof.
  unfold FileDetector.scan_directory, result_bind.
  intros [->|[-> ->]]; reflexivity.
Qed.

Lemma scan_directory_elem recursive d l :
  FileDetector.scan_directory w recursive d = Ok l →
  ∀ p, p ∈ l ↔
    ∃ found,
      path_exists w d = Ok true ∧ path_is_dir w d = Ok true
      ∧ path_glob w d (pattern_of recursive) = Ok found
      ∧ p ∈ found ∧ kept_by w p.
Proof.
  unfold FileDetector.scan_directory, result_bind, pattern_of.
  destruct (path_exists w d) as [[|]|e]; cbn; [| |done].
  - destruct (path_is_dir w d) as [[|]|e']; cbn; [| |done].
    + destruct (path_glob w d (if recursive then "**/*" else "*"))
        as [found|e'']; [|done].
      intros Hkeep p.
      destruct (keep_supported_elem found l Hkeep) as [_ Hiff].
      rewrite Hiff. split.
      * intros [Hin Hk]. exists found. by split_and!.
      * intros (found' & _ & _ & [= <-] & Hin & Hk). by split.
    + intros [= <-] p. split; [by intros ?%elem_of_nil|].
      intros (? & _ & ? & _); discriminate.
  - intros [= <-] p. split; [by intros ?%elem_of_nil|].
    intros (? & ? & _); discriminate.
Qed.

Lemma scan_directories_elem recursive : ∀ dirs files,
  FileDetector.scan_directories w recursive dirs = Ok files →
  ∀ p, p ∈ files ↔
    ∃ d l, d ∈ dirs ∧ FileDetector.scan_directory w recursive d = Ok l ∧ p ∈ l.
Proof.
  induction dirs as [|d rest IH]; intros files; cbn.
  - intros [= <-] p. split; [by intros ?%elem_of_nil|].
    by intros (? & ? & ?%elem_of_nil & _).
  - unfold result_bind.
    destruct (FileDetector.scan_directory w recursive d) as [here|e] eqn:Hd;
      [|done].
    destruct (FileDetector.scan_directories w recursive rest) as [there|e];
      [|done].
    intros [= <-] p. rewrite elem_of_app, (IH there eq_refl). split.
    + intros [Hp|(d' & l & Hd' & Hl & Hp)].
      * exists d, here. split; [by left | done].
      * exists d', l. split; [by right | done].
    + intros (d' & l & [->|Hd']%elem_of_cons & Hl & Hp).
      * left. rewrite Hd in Hl. by injection Hl as <-.
      * right. eauto.
Qed.

Lemma scan_directories_each recursive : ∀ dirs files,
  FileDetector.scan_directories w recursive dirs = Ok files →
  ∀ d, d ∈ dirs → ∃ l, FileDetector.scan_directory w recursive d = Ok l.
Proof.
  induction dirs as [|d' rest IH]; intros files; cbn.
  - intros _ d ?%elem_of_nil. done.
  - unfold result_bind.
    destruct (FileDetector.scan_directory w recursive d') as [here|e] eqn:Hd;
      [|done].
    destruct (FileDetector.scan_directories w recursive rest) as [there|e];
      [|done].
    intros _ d [->|Hin]%elem_of_cons; [eauto | by apply (IH there)].
Qed.

Lemma scan_directories_skipped recursive dirs :
  Forall (skipped w) dirs →
  FileDetector.scan_directories w recursive dirs = Ok [].
Proof.
  induction 1 as [|d rest Hd _ IH]; cbn; [done|].
  by rewrite (scan_directory_skipped recursive d Hd), IH.
Qed.

End DetectionFacts.

(** X1. A detection that returns, returns exactly the listed entries that
    are regular files with a supported (lowercased) extension: a path is in
    the result if and only if some configured directory exists, is a
    directory, lists the path under the pattern of the recursion flag
    ("**/*" or "*"), and the path is a regular file whose extension is
    supported. *)
Theorem detect_files_characterised
    (w : World) (dirs : list string) (recursive : bool) (files : list string) :
  FileDetector.detect_files w dirs recursive = Ok files →
  ∀ p, p ∈ files ↔
    ∃ d found,
      d ∈ dirs
      ∧ path_exists w d = Ok true ∧ path_is_dir w d = Ok true
      ∧ path_glob w d (pattern_of recursive) = Ok found
      ∧ p ∈ found ∧ kept_by w p.
Proof.
  unfold FileDetector.detect_files. intros Hdet p.
  rewrite (scan_directories_elem w recursive dirs files Hdet). split.
  - intros (d & l & Hd & Hl & Hp).
    apply (scan_directory_elem w recursive d l Hl) in Hp
      as (found & He & Hi & Hg & Hin & Hk).
    exists d, found. exact (conj Hd (conj He (conj Hi (conj Hg (conj Hin Hk))))).
  - intros (d & found & Hd & He & Hi & Hg & Hp & Hk).
    destruct (scan_directories_each w recursive dirs files Hdet d Hd) as [l Hl].
    exists d, l. split; [done|]. split; [done|].
    apply (scan_directory_elem w recursive d l Hl).
    exists found. exact (conj He (conj Hi (conj Hg (conj Hp Hk)))).
Qed.

Lemma detect_files_characterised_witness :
  Scenario.a_csv ∈ [Scenario.a_csv; Scenario.b_json] ↔
    ∃ d found,
      d ∈ [Scenario.incoming]
      ∧ path_exists Scenario.demo d = Ok true
      ∧ path_is_dir Scenario.demo d = Ok true
      ∧ path_glob Scenario.demo d (pattern_of false) = Ok found
      ∧ Scenario.a_csv ∈ found ∧ kept_by Scenario.demo Scenario.a_csv.
Proof.
  apply (detect_files_characterised Scenario.demo [Scenario.incoming] false
           [Scenario.a_csv; Scenario.b_json]).
  reflexivity.
Defined.

(** X2. Configured directories that do not exist, or are not directories,
    are skipped without failing the run: when all are, the run completes
    with an empty result and zero counts, leaves the metadata document
    alone and, the history being readable, still records a start entry
    with files_detected = 0 and a complete entry with zero counts. *)
Theorem run_over_missing_directories
    (w : World) (watch_directories : list string) (recursive : bool) (st : State) :
  Forall (skipped w) (FileDetector.init watch_directories) →
  ∃ s st',
    DataIngestionPipeline.run_ingestion w watch_directories recursive st
    = (Ok s, st')
    ∧ DataIngestionPipeline.error s = None
    ∧ DataIngestionPipeline.total_files s = 0%nat
    ∧ DataIngestionPipeline.processed_count s = 0%nat
    ∧ DataIngestionPipeline.failed_count s = 0%nat
    ∧ DataIngestionPipeline.results s = Some []
    ∧ metadata_file st' = metadata_file st
    ∧ (readable (ingestion_log st) →
       ∃ t0 t1,
         history st'
         = history st
             ++ [ingestion_start (DataIngestionPipeline.session_id s) t0 0;
                 ingestion_complete (DataIngestionPipeline.session_id s) t1 0 0]).
Proof.
  intros Hskip.
  pose proof (scan_directories_skipped w recursive _ Hskip) as Hdet.
  rewrite run_ingestion_eval. eexists _, _. split; [reflexivity|].
  unfold summary_of, after_run, detected, FileDetector.detect_files.
  rewrite Hdet. cbn.
  repeat (split; [reflexivity|]).
  intros Hr. eexists _, _. unfold history. cbn.
  rewrite !entries_append by (done || by apply readable_append).
  rewrite <- app_assoc. reflexivity.
Qed.

Lemma run_over_missing_directories_witness :
  ∃ s st',
    DataIngestionPipeline.run_ingestion Scenario.demo ["data/elsewhere"] true
      Scenario.fresh
    = (Ok s, st')
    ∧ DataIngestionPipeline.error s = None
    ∧ DataIngestionPipeline.total_files s = 0%nat
    ∧ DataIngestionPipeline.processed_count s = 0%nat
    ∧ DataIngestionPipeline.failed_count s = 0%nat
    ∧ DataIngestionPipeline.results s = Some []
    ∧ metadata_file st' = metadata_file Scenario.fresh
    ∧ ∃ t0 t1,
        history st'
        = history Scenario.fresh
            ++ [ingestion_start (DataIngestionPipeline.session_id s) t0 0;
                ingestion_complete (DataIngestionPipeline.session_id s) t1 0 0].
Proof.
  destruct (run_over_missing_directories Scenario.demo ["data/elsewhere"] true
              Scenario.fresh)
    as (s & st' & H1 & H2 & H3 & H4 & H5 & H6 & H7 & H8).
  { repeat constructor. }
  exists s, st'. repeat (split; [assumption|]). apply H8. discriminate.
Defined.

(** ** More about the checksum *)

Lemma length_substring_prefix s : ∀ n,
  String.length (substring 0 n s) = Nat.min n (String.length s).
Proof.
  induction s as [|c r IH]; intros [|n]; cbn; try reflexivity.
  by rewrite IH.
Qed.

(** The chunks [read_chunks] hands to the hasher: none is empty, each has
    at most [size] bytes and every one but the last has exactly [size]. *)
Lemma read_chunks_sizes size fuel : ∀ content,
  (0 < size)%nat → (String.length content ≤ fuel)%nat →
  Forall (fun chunk => (0 < String.length chunk ≤ size)%nat)
    (MetadataExtractor.read_chunks fuel size content)
  ∧ ∀ i chunk,
      MetadataExtractor.read_chunks fuel size content !! i = Some chunk →
      (S i < length (MetadataExtractor.read_chunks fuel size content))%nat →
      String.length chunk = size.
Proof.
  induction fuel as [|fuel IH]; intros content Hsize Hlen.
  - split; [constructor|]. intros i chunk H. cbn in H. discriminate H.
  - destruct content as [|c r].
    { split; [constructor|]. intros i chunk H. cbn in H. discriminate H. }
    remember (String c r) as content eqn:Hc.
    assert (0 < String.length content)%nat as Hpos by (subst; cbn; lia).
    assert (MetadataExtractor.read_chunks (S fuel) size content
            = substring 0 size content
                :: MetadataExtractor.read_chunks fuel size
                     (substring size (String.length content - size) content))
      as -> by (subst content; reflexivity).
    set (rest := substring size (String.length content - size) content).
    assert (String.length rest = String.length content - size)%nat as Hrest
      by apply length_substring_rest.
    destruct (IH rest Hsize) as [Hall Hfull]; [lia|].
    split.
    + constructor; [rewrite length_substring_prefix; lia | exact Hall].
    + intros [|i] chunk Hlook Hi; cbn in Hlook, Hi.
      * injection Hlook as <-. rewrite length_substring_prefix.
        destruct (MetadataExtractor.read_chunks fuel size rest) as [|x more] eqn:E;
          [cbn in Hi; lia|].
        destruct (decide (String.length content ≤ size)%nat) as [Hle|]; [|lia].
        exfalso.
        assert (rest = "") as Hempty by (destruct rest; [done | cbn in Hrest; lia]).
        rewrite Hempty in E. destruct fuel; discriminate E.
      * apply (Hfull i chunk Hlook). lia.
Qed.

(** X3. The checksum is computed over the whole file, read in chunks of
    4096 bytes: the chunks fed to the hasher put together are the content,
    none is empty, none is longer than 4096 bytes and all but the last are
    exactly 4096 bytes long. *)
Theorem checksum_chunks_partition_file (content : string) :
  String.concat "" (MetadataExtractor.chunks 4096 content) = content
  ∧ Forall (fun chunk => (0 < String.length chunk ≤ 4096)%nat)
      (MetadataExtractor.chunks 4096 content)
  ∧ ∀ i chunk,
      MetadataExtractor.chunks 4096 content !! i = Some chunk →
      (S i < length (MetadataExtractor.chunks 4096 content))%nat →
      String.length chunk = 4096%nat.
Proof.
  split; [apply chunks_concat|].
  apply read_chunks_sizes; lia.
Qed.

(** X4. The checksum depends on the content only, not on the name: two
    readable files with the same bytes get the same checksum, which is the
    digest of the chunks of the content, and their records carry the same
    'checksum' field. *)
Theorem checksum_of_identical_files
    (w : World) (p q content : string) (h : list string → string)
    (sp sq : Stat) (st st' : State) :
  hashlib_new w "md5" = Ok h →
  open_rb w p = Ok content → open_rb w q = Ok content →
  path_stat w p = Ok sp → path_stat w q = Ok sq →
  MetadataExtractor._calculate_checksum w p
  = Ok (JStr (h (MetadataExtractor.chunks 4096 content)))
  ∧ MetadataExtractor._calculate_checksum w q
    = MetadataExtractor._calculate_checksum w p
  ∧ ∃ rp rq,
      fst (MetadataExtractor.extract_metadata w p st) = Ok rp
      ∧ fst (MetadataExtractor.extract_metadata w q st') = Ok rq
      ∧ rp !! "checksum" = Some (JStr (h (MetadataExtractor.chunks 4096 content)))
      ∧ rq !! "checksum" = rp !! "checksum".
Proof.
  intros Hh Hp Hq Hsp Hsq.
  assert (∀ f, open_rb w f = Ok content →
            MetadataExtractor._calculate_checksum w f
            = Ok (JStr (h (MetadataExtractor.chunks 4096 content)))) as Hsum.
  { intros f Hf. unfold MetadataExtractor._calculate_checksum.
    by rewrite Hh, Hf. }
  split; [by apply Hsum|]. split; [by rewrite !Hsum|].
  rewrite !extract_metadata_eval. cbn [fst]. eexists _, _.
  split; [reflexivity|]. split; [reflexivity|].
  destruct (record_of_full w p (now_calls st) sp h Hsp Hh) as (cp & Hcp & -> & _).
  destruct (record_of_full w q (now_calls st') sq h Hsq Hh) as (cq & Hcq & -> & _).
  rewrite Hsum in Hcp, Hcq by done. injection Hcp as <-. injection Hcq as <-.
  assert ("checksum" ∈ base_keys) as Hin
    by (apply (bool_decide_unpack ("checksum" ∈ base_keys)); exact I).
  rewrite !lookup_full_record by exact Hin.
  done.
Qed.

(** ** More about the format branches *)

Section Branches.
Variable w : World.

Lemma assoc_set_fresh k v : ∀ d,
  k ∉ d.*1 → assoc_set k v d = d ++ [(k, v)].
Proof.
  induction d as [|[k' v'] d IH]; cbn; [done|].
  intros Hk. apply not_elem_of_cons in Hk as [Hne Hk].
  destruct (String.eqb_spec k k') as [->|_]; [done|].
  by rewrite IH.
Qed.

(** The sheets whose two reads succeed, with what is recorded for them. *)
Lemma excel_sheets_info_ok file_path (sample full : string → Frame) :
  ∀ sheets acc,
    (∀ sheet, sheet ∈ sheets →
       read_excel w file_path sheet (Some 5%nat) = Ok (sample sheet)
       ∧ read_excel w file_path sheet None = Ok (full sheet)) →
    NoDup (acc.*1 ++ sheets) →
    MetadataExtractor.excel_sheets_info w file_path sheets acc
    = Ok (acc ++ ((fun sheet => (sheet, sheet_info (sample sheet) (full sheet)))
                    <$> sheets)).
Proof.
  induction sheets as [|sheet rest IH]; intros acc Hok Hnd;
    cbn [MetadataExtractor.excel_sheets_info fmap list_fmap].
  - by rewrite app_nil_r.
  - destruct (Hok sheet) as [-> ->]; [by left|]. unfold result_bind.
    fold (sheet_info (sample sheet) (full sheet)).
    apply NoDup_app in Hnd as (Hacc & Hdisj & Hrest).
    apply NoDup_cons in Hrest as [Hfresh Hrest].
    rewrite assoc_set_fresh by (intros Hin; apply (Hdisj _ Hin); by left).
    rewrite IH.
    + by rewrite <- app_assoc.
    + intros s Hs. apply Hok. by right.
    + rewrite fmap_app. cbn. rewrite <- app_assoc. cbn.
      apply NoDup_app. split; [done|]. split; [|by apply NoDup_cons].
      intros x Hx. apply Hdisj in Hx. done.
Qed.

(** A sheet that cannot be read makes the whole loop raise. *)
Lemma excel_sheets_info_raises file_path : ∀ sheets acc sheet,
  sheet ∈ sheets →
  (∃ e, read_excel w file_path sheet (Some 5%nat) = Raise e)
  ∨ (∃ e, read_excel w file_path sheet None = Raise e) →
  ∃ e, MetadataExtractor.excel_sheets_info w file_path sheets acc = Raise e.
Proof.
  induction sheets as [|s rest IH]; intros acc sheet Hin Hbad;
    [by apply elem_of_nil in Hin|].
  cbn [MetadataExtractor.excel_sheets_info]. unfold result_bind.
  destruct (read_excel w file_path s (Some 5%nat)) as [df|e] eqn:H5; [|eauto].
  destruct (read_excel w file_path s None) as [fl|e] eqn:Hfull; [|eauto].
  apply elem_of_cons in Hin as [->|Hin].
  - destruct Hbad as [[e He]|[e He]]; congruence.
  - by apply (IH _ sheet).
Qed.

End Branches.

(** X5. The csv/tsv fields are all or nothing.  When the sample is parsed
    and the file is read, the branch gives exactly row_count, column_count,
    column_names and data_types.  When either step raises - also when the
    sample was parsed and only the reading of the whole file for the row
    count fails - it gives csv_error alone, with the message raised. *)
Theorem csv_fields_all_or_nothing (w : World) (file_path : string) :
  match read_csv w file_path 5, open_rb w file_path with
  | Ok df, Ok content =>
      dom (MetadataExtractor._extract_csv_metadata w file_path) = csv_fields
  | Ok df, Raise e =>
      MetadataExtractor._extract_csv_metadata w file_path
      = {["csv_error" := JStr e]}
  | Raise e, _ =>
      MetadataExtractor._extract_csv_metadata w file_path
      = {["csv_error" := JStr e]}
  end.
Proof.
  unfold MetadataExtractor._extract_csv_metadata, try_except, result_bind.
  destruct (read_csv w file_path 5) as [df|e]; [|reflexivity].
  destruct (open_rb w file_path) as [content|e]; [|reflexivity].
  unfold csv_fields. cbn [list_to_map foldr list_to_set].
  rewrite !dom_insert_L, dom_empty_L. reflexivity.
Qed.

(** X6. The Excel branch records, for a workbook whose sheets all read,
    the number of sheets, their names, and per sheet the row count of the
    full read together with the columns of the five-row sample, in the
    order of the sheets.  One sheet that cannot be read voids the whole
    branch: the record gets excel_error alone. *)
Theorem excel_sheets_all_or_nothing
    (w : World) (file_path : string) (sheets : list string)
    (sample full : string → Frame) :
  excel_sheet_names w file_path = Ok sheets →
  NoDup sheets →
  ((∀ sheet, sheet ∈ sheets →
      read_excel w file_path sheet (Some 5%nat) = Ok (sample sheet)
      ∧ read_excel w file_path sheet None = Ok (full sheet)) →
   MetadataExtractor._extract_excel_metadata w file_path
   = list_to_map
       [("sheet_count", JInt (Z.of_nat (length sheets)));
        ("sheet_names", JList (JStr <$> sheets));
        ("sheets_info",
          JDict ((fun sheet => (sheet, sheet_info (sample sheet) (full sheet)))
                   <$> sheets))])
  ∧ (∀ sheet, sheet ∈ sheets →
       (∃ e, read_excel w file_path sheet (Some 5%nat) = Raise e)
       ∨ (∃ e, read_excel w file_path sheet None = Raise e) →
       ∃ e, MetadataExtractor._extract_excel_metadata w file_path
            = {["excel_error" := JStr e]}).
Proof.
  intros Hnames Hnd. unfold MetadataExtractor._extract_excel_metadata.
  rewrite Hnames. unfold result_bind. cbn beta iota. split.
  - intros Hok.
    rewrite (excel_sheets_info_ok w file_path sample full sheets [] Hok)
      by done.
    reflexivity.
  - intros sheet Hin Hbad.
    destruct (excel_sheets_info_raises w file_path sheets [] sheet Hin Hbad)
      as [e ->].
    by exists e.
Qed.

(** X7. The JSON branch looks at the root only, and for an array at its
    first element only: an array gives json_type "array", its length and
    the keys of the first element when that is a record (null for an empty
    array or another first element); a record gives json_type "object" and
    its keys; any other value gives only json_type, the name of its type.
    A file that does not parse gives json_error alone. *)
Theorem json_branch_by_root (w : World) (file_path : string) :
  match json_load w file_path with
  | Ok (JList []) =>
      MetadataExtractor._extract_json_metadata w file_path
      = list_to_map [("json_type", JStr "array"); ("record_count", JInt 0);
                     ("sample_keys", JNull)]
  | Ok (JList (JDict d :: rest)) =>
      MetadataExtractor._extract_json_metadata w file_path
      = list_to_map [("json_type", JStr "array");
                     ("record_count", JInt (Z.of_nat (S (length rest))));
                     ("sample_keys", JList (JStr <$> d.*1))]
  | Ok (JList (_ :: rest)) =>
      MetadataExtractor._extract_json_metadata w file_path
      = list_to_map [("json_type", JStr "array");
                     ("record_count", JInt (Z.of_nat (S (length rest))));
                     ("sample_keys", JNull)]
  | Ok (JDict d) =>
      MetadataExtractor._extract_json_metadata w file_path
      = list_to_map [("json_type", JStr "object");
                     ("top_level_keys", JList (JStr <$> d.*1))]
  | Ok scalar =>
      MetadataExtractor._extract_json_metadata w file_path
      = {["json_type" := JStr (MetadataExtractor.type_name scalar)]}
      ∧ MetadataExtractor.type_name scalar
        ∈ ["NoneType"; "bool"; "int"; "float"; "str"]
  | Raise e =>
      MetadataExtractor._extract_json_metadata w file_path
      = {["json_error" := JStr e]}
  end.
Proof.
  unfold MetadataExtractor._extract_json_metadata, try_except, result_bind.
  destruct (json_load w file_path) as [[| | | | |[|[]]|]|e]; cbn;
    try reflexivity; (split; [reflexivity | set_solver]).
Qed.



(** X9. An extraction touches nothing of the log store: it reads the clock
    exactly once, leaves both documents as they are, and the record it
    returns carries that reading as 'extraction_time' and the path as
    'file_path', whether the extraction succeeded or not. *)
Theorem extract_metadata_effect (w : World) (file_path : string) (st : State) :
  ∃ record st',
    MetadataExtractor.extract_metadata w file_path st = (Ok record, st')
    ∧ now_calls st' = S (now_calls st)
    ∧ ingestion_log st' = ingestion_log st
    ∧ metadata_file st' = metadata_file st
    ∧ record !! "extraction_time"
      = Some (JStr (isoformat (clock w (now_calls st))))
    ∧ record !! "file_path" = Some (JStr file_path).
Proof.
  rewrite extract_metadata_eval. eexists _, _. split; [reflexivity|].
  repeat (split; [reflexivity|]). split; [|apply record_of_file_path].
  pose proof (record_of_cases w file_path (now_calls st)) as H.
  destruct (extraction_error w file_path) as [e|].
  - rewrite H. reflexivity.
  - destruct H as (s & c & _ & _ & ->).
    rewrite lookup_full_record; [reflexivity|]. unfold base_keys. set_solver.
Qed.

(** ** More about the log store *)

Lemma get_ingestion_history_eval limit st :
  IngestionLogger.get_ingestion_history limit st
  = (Ok (IngestionLogger.last_entries limit (history st)), st).
Proof.
  unfold IngestionLogger.get_ingestion_history, try_catch, ret, history.
  unfold doc_entries, IngestionLogger.last_entries.
  destruct (ingestion_log st); cbn; try reflexivity;
    repeat case_match; by rewrite ?drop_nil.
Qed.

Lemma get_file_metadata_eval file_path st :
  IngestionLogger.get_file_metadata file_path st
  = (Ok (match IngestionLogger.truthy file_path with
         | Some p => IngestionLogger.one_record (default ∅ (table st !! p))
         | None => IngestionLogger.whole_table (table st)
         end), st).
Proof.
  unfold IngestionLogger.get_file_metadata, IngestionLogger.nothing, try_catch,
    ret, table.
  destruct (metadata_file st); cbn; try reflexivity;
    destruct (IngestionLogger.truthy file_path); reflexivity.
Qed.

(** X10. [get_ingestion_history] with a positive limit never raises,
    changes nothing, and returns the last [limit] entries of the history
    in the order they were appended: a suffix of the history of
    min(limit, length) entries. *)
Theorem history_with_positive_limit (limit : Z) (st : State) :
  0 < limit →
  ∃ answer older,
    IngestionLogger.get_ingestion_history limit st = (Ok answer, st)
    ∧ history st = older ++ answer
    ∧ length answer = Nat.min (Z.to_nat limit) (length (history st)).
Proof.
  intros Hpos. rewrite get_ingestion_history_eval.
  unfold IngestionLogger.last_entries.
  destruct (Z.eqb_spec limit 0) as [->|_]; [lia|].
  destruct (Z.ltb_spec 0 limit) as [_|?]; [|lia].
  eexists _, (take (length (history st) - Z.to_nat limit) (history st)).
  split; [reflexivity|]. split; [by rewrite take_drop|].
  rewrite length_drop. lia.
Qed.

Lemma history_with_positive_limit_witness :
  ∃ answer older,
    IngestionLogger.get_ingestion_history 3
      (exec Scenario.fresh Scenario.demo_run)
    = (Ok answer, exec Scenario.fresh Scenario.demo_run)
    ∧ history (exec Scenario.fresh Scenario.demo_run) = older ++ answer
    ∧ length answer
      = Nat.min (Z.to_nat 3) (length (history (exec Scenario.fresh Scenario.demo_run))).
Proof.
  apply (history_with_positive_limit 3 (exec Scenario.fresh Scenario.demo_run)).
  reflexivity.
Defined.

(** X11. A limit that is not positive is not refused: a negative limit
    makes [log_data[-limit:]] drop the oldest |limit| entries and return
    all the others, and a limit of 0 returns the whole history. *)
Theorem history_with_other_limits (limit : Z) (st : State) :
  limit ≤ 0 →
  ∃ answer,
    IngestionLogger.get_ingestion_history limit st = (Ok answer, st)
    ∧ answer = drop (Z.to_nat (- limit)) (history st)
    ∧ length answer = (length (history st) - Z.to_nat (- limit))%nat.
Proof.
  intros Hneg. rewrite get_ingestion_history_eval.
  unfold IngestionLogger.last_entries.
  eexists; split; [reflexivity|].
  destruct (Z.eqb_spec limit 0) as [->|Hne].
  - cbn. split; [reflexivity | lia].
  - destruct (Z.ltb_spec 0 limit) as [?|_]; [lia|].
    split; [reflexivity | apply length_drop].
Qed.

Lemma history_with_other_limits_witness :
  ∃ answer,
    IngestionLogger.get_ingestion_history (-1)
      (exec Scenario.fresh Scenario.demo_run)
    = (Ok answer, exec Scenario.fresh Scenario.demo_run)
    ∧ answer = drop (Z.to_nat (- (-1))) (history (exec Scenario.fresh Scenario.demo_run))
    ∧ length answer
      = (length (history (exec Scenario.fresh Scenario.demo_run))
         - Z.to_nat (- (-1)))%nat.
Proof.
  apply (history_with_other_limits (-1) (exec Scenario.fresh Scenario.demo_run)).
  lia.
Defined.

(** X12. The two queries never raise and have no effect, whatever the
    state of the log directory; on a document that is missing or cannot be
    parsed they answer with the empty list, the empty table or the empty
    record. *)
Theorem queries_are_silent
    (limit : Z) (file_path : option string) (st : State) :
  (∃ entries, IngestionLogger.get_ingestion_history limit st = (Ok entries, st))
  ∧ (∃ answer, IngestionLogger.get_file_metadata file_path st = (Ok answer, st))
  ∧ (ingestion_log st = Missing ∨ ingestion_log st = Malformed →
     fst (IngestionLogger.get_ingestion_history limit st) = Ok [])
  ∧ (metadata_file st = Missing ∨ metadata_file st = Malformed →
     fst (IngestionLogger.get_file_metadata file_path st)
     = Ok (IngestionLogger.nothing file_path)).
Proof.
  rewrite get_ingestion_history_eval, get_file_metadata_eval. cbn [fst].
  split; [eauto|]. split; [eauto|]. split.
  - unfold history. intros [-> | ->]; cbn;
      unfold IngestionLogger.last_entries; repeat case_match;
      by rewrite ?drop_nil.
  - unfold table, IngestionLogger.nothing. intros [-> | ->]; cbn;
      destruct (IngestionLogger.truthy file_path); by rewrite ?lookup_empty.
Qed.

Lemma queries_are_silent_witness :
  fst (IngestionLogger.get_ingestion_history 100 Scenario.damaged) = Ok []
  ∧ fst (IngestionLogger.get_file_metadata (Some Scenario.a_csv) Scenario.fresh)
    = Ok (IngestionLogger.nothing (Some Scenario.a_csv)).
Proof.
  destruct (queries_are_silent 100 (Some Scenario.a_csv) Scenario.damaged)
    as (_ & _ & Hlog & _).
  destruct (queries_are_silent 100 (Some Scenario.a_csv) Scenario.fresh)
    as (_ & _ & _ & Hmeta).
  split; [apply Hlog; by right | apply Hmeta; by left].
Defined.

(** X13. [get_file_metadata] answers a path that is not in the table with
    the empty record, so an absent path and a missing table look alike;
    asked with no path, or with the empty string, it answers with the
    whole table. *)
Theorem get_file_metadata_cases (p : string) (st : State) :
  p ≠ "" →
  fst (IngestionLogger.get_file_metadata (Some p) st)
  = Ok (IngestionLogger.one_record (default ∅ (table st !! p)))
  ∧ (table st !! p = None →
     fst (IngestionLogger.get_file_metadata (Some p) st)
     = Ok (IngestionLogger.one_record ∅))
  ∧ fst (IngestionLogger.get_file_metadata (Some "") st)
    = Ok (IngestionLogger.whole_table (table st))
  ∧ fst (IngestionLogger.get_file_metadata None st)
    = Ok (IngestionLogger.whole_table (table st)).
Proof.
  intros Hp. rewrite !get_file_metadata_eval. cbn [fst].
  assert (IngestionLogger.truthy (Some p) = Some p) as ->
    by (destruct p; done).
  split; [reflexivity|]. split; [by intros ->|]. split; reflexivity.
Qed.

Lemma get_file_metadata_cases_witness :
  let st := exec Scenario.fresh Scenario.demo_run in
  fst (IngestionLogger.get_file_metadata (Some Scenario.notes_txt) st)
  = Ok (IngestionLogger.one_record ∅)
  ∧ fst (IngestionLogger.get_file_metadata (Some "") st)
    = Ok (IngestionLogger.whole_table (table st)).
Proof.
  intros st.
  destruct (get_file_metadata_cases Scenario.notes_txt st) as (_ & Habs & Hall & _).
  { discriminate. }
  split; [apply Habs; vm_compute; reflexivity | exact Hall].
Defined.

(** X14. Storing and reading back: after [_store_metadata] of a record
    with the 'file_path' k on a document that is missing or parsed,
    [get_file_metadata(k)] returns that record, every other path answers
    as before, and storing a second record under the same path leaves
    only the second (last write wins). *)
Theorem store_then_lookup
    (metadata newer : Dict) (k other : string) (st : State) :
  readable (metadata_file st) →
  metadata !! "file_path" = Some (JStr k) →
  newer !! "file_path" = Some (JStr k) →
  k ≠ "" → other ≠ "" → other ≠ k →
  let st1 := snd (IngestionLogger._store_metadata metadata st) in
  let st2 := snd (IngestionLogger._store_metadata newer st1) in
  fst (IngestionLogger.get_file_metadata (Some k) st1)
  = Ok (IngestionLogger.one_record metadata)
  ∧ fst (IngestionLogger.get_file_metadata (Some other) st1)
    = fst (IngestionLogger.get_file_metadata (Some other) st)
  ∧ table st1 = <[k := metadata]> (table st)
  ∧ st2 = snd (IngestionLogger._store_metadata newer st)
  ∧ ingestion_log st1 = ingestion_log st.
Proof.
  intros Hr Hk Hk' Hne Hne' Hother. cbn zeta.
  rewrite !store_metadata_eval. cbn [snd].
  rewrite !get_file_metadata_eval. cbn [fst].
  assert (∀ md, md !! "file_path" = Some (JStr k) →
            IngestionLogger.json_key (IngestionLogger.file_key_of md) = Ok k)
    as Hkey by (intros md H; unfold IngestionLogger.file_key_of; by rewrite H).
  assert (table (with_metadata (doc_store metadata) st)
          = <[k := metadata]> (table st)) as Htable
    by (unfold table; cbn; apply table_store; auto).
  rewrite Htable.
  assert (IngestionLogger.truthy (Some k) = Some k) as -> by (destruct k; done).
  split; [by rewrite lookup_insert_eq|]. split.
  { assert (IngestionLogger.truthy (Some other) = Some other) as ->
      by (destruct other; done).
    by rewrite lookup_insert_ne. }
  split; [reflexivity|]. split; [|reflexivity].
  unfold with_metadata, doc_store. cbn.
  rewrite (Hkey metadata Hk), (Hkey newer Hk').
  destruct (metadata_file st) as [|m|] eqn:Hm; cbn; rewrite ?Hm;
    [by rewrite insert_insert_eq | by rewrite insert_insert_eq | by destruct Hr].
Qed.

Lemma store_then_lookup_witness :
  let first : Dict :=
    list_to_map [("file_path", JStr Scenario.a_csv); ("checksum", JStr "one")] in
  let second : Dict :=
    list_to_map [("file_path", JStr Scenario.a_csv); ("checksum", JStr "two")] in
  let st := Scenario.fresh in
  let st1 := snd (IngestionLogger._store_metadata first st) in
  let st2 := snd (IngestionLogger._store_metadata second st1) in
  fst (IngestionLogger.get_file_metadata (Some Scenario.a_csv) st1)
  = Ok (IngestionLogger.one_record first)
  ∧ fst (IngestionLogger.get_file_metadata (Some Scenario.b_json) st1)
    = fst (IngestionLogger.get_file_metadata (Some Scenario.b_json) st)
  ∧ table st1 = <[Scenario.a_csv := first]> (table st)
  ∧ st2 = snd (IngestionLogger._store_metadata second st)
  ∧ ingestion_log st1 = ingestion_log st.
Proof.
  intros first second st.
  apply (store_then_lookup first second Scenario.a_csv Scenario.b_json st);
    (reflexivity || discriminate).
Defined.

(** X15. A record without 'file_path' is not refused: [_store_metadata]
    files it under the key "unknown", where the next such record replaces
    it.  A record whose 'file_path' is a list or a dictionary is not
    stored at all, and no exception leaves [_store_metadata]. *)
Theorem store_without_file_path (metadata : Dict) (st : State) :
  readable (metadata_file st) →
  (metadata !! "file_path" = None →
   IngestionLogger._store_metadata metadata st
   = (Ok tt, snd (IngestionLogger._store_metadata metadata st))
   ∧ table (snd (IngestionLogger._store_metadata metadata st))
     = <["unknown" := metadata]> (table st))
  ∧ ((∃ l, metadata !! "file_path" = Some (JList l))
     ∨ (∃ d, metadata !! "file_path" = Some (JDict d)) →
     IngestionLogger._store_metadata metadata st = (Ok tt, st)).
Proof.
  intros Hr. rewrite store_metadata_eval. cbn [snd]. split.
  - intros Hnone. split; [reflexivity|].
    unfold table. cbn. apply table_store; [done|].
    unfold IngestionLogger.file_key_of. by rewrite Hnone.
  - intros Hbad. f_equal.
    assert (doc_store metadata (metadata_file st) = metadata_file st) as Hsame.
    { unfold doc_store, IngestionLogger.file_key_of.
      destruct Hbad as [[l ->]|[d ->]]; reflexivity. }
    unfold with_metadata. rewrite Hsame. by destruct st.
Qed.

Lemma store_without_file_path_witness :
  let anonymous : Dict := {["checksum" := JStr "one"]} in
  let listed : Dict := {["file_path" := JList [JStr Scenario.a_csv]]} in
  table (snd (IngestionLogger._store_metadata anonymous Scenario.fresh))
  = <["unknown" := anonymous]> (table Scenario.fresh)
  ∧ IngestionLogger._store_metadata listed Scenario.fresh
    = (Ok tt, Scenario.fresh).
Proof.
  intros anonymous listed.
  destruct (store_without_file_path anonymous Scenario.fresh) as [Hunknown _];
    [discriminate|].
  destruct (store_without_file_path listed Scenario.fresh) as [_ Hlisted];
    [discriminate|].
  split.
  - apply Hunknown. reflexivity.
  - apply Hlisted. left. by eexists.
Defined.

(** ** Documents that cannot be parsed *)

Lemma exec_unreadable_log o st :
  ingestion_log st = Malformed → ingestion_log (exec st o) = Malformed.
Proof.
  intros Hm. destruct o as [w dirs recursive|limit|file_path]; cbn [exec].
  - rewrite run_ingestion_eval. by apply unreadable_after_run.
  - by rewrite get_ingestion_history_state.
  - by rewrite get_file_metadata_state.
Qed.

Lemma exec_unreadable_metadata o st :
  metadata_file st = Malformed → metadata_file (exec st o) = Malformed.
Proof.
  intros Hm.
  apply (exec_metadata_ind (fun d => d = Malformed)); [|done].
  intros w p n d -> _. apply table_store_unreadable. intros H. by apply H.
Qed.

(** X16. A document of the log directory that cannot be parsed is never
    repaired nor overwritten: after any sequence of runs and queries it
    still cannot be parsed, so the history stays empty for every reader
    and no record is stored any more. *)
Theorem unreadable_documents_stay_unreadable (st : State) (ops : list Op) :
  (ingestion_log st = Malformed →
   ingestion_log (exec_all st ops) = Malformed
   ∧ history (exec_all st ops) = [])
  ∧ (metadata_file st = Malformed →
     metadata_file (exec_all st ops) = Malformed
     ∧ table (exec_all st ops) = ∅).
Proof.
  unfold exec_all. split; intros Hm.
  - assert (ingestion_log (foldl exec st ops) = Malformed) as H.
    { revert st Hm. induction ops as [|o rest IH]; intros st Hm; cbn; [done|].
      apply IH. by apply exec_unreadable_log. }
    split; [done|]. unfold history. by rewrite H.
  - assert (metadata_file (foldl exec st ops) = Malformed) as H.
    { revert st Hm. induction ops as [|o rest IH]; intros st Hm; cbn; [done|].
      apply IH. by apply exec_unreadable_metadata. }
    split; [done|]. unfold table. by rewrite H.
Qed.

Lemma unreadable_documents_stay_unreadable_witness :
  let broken :=
    {| now_calls := 0; ingestion_log := Malformed; metadata_file := Malformed |} in
  let after := exec_all broken [Scenario.demo_run; Scenario.demo_run] in
  (ingestion_log after = Malformed ∧ history after = [])
  ∧ (metadata_file after = Malformed ∧ table after = ∅).
Proof.
  intros broken after.
  destruct (unreadable_documents_stay_unreadable broken
              [Scenario.demo_run; Scenario.demo_run]) as [Hlog Hmeta].
  split; [apply Hlog | apply Hmeta]; reflexivity.
Defined.

(** X17. The newest entry is the last one returned: after an append to a
    history that is missing or parsed, [get_ingestion_history] with any
    positive limit ends with the entry just appended. *)
Theorem newest_entry_is_last (entry : Entry) (limit : Z) (st : State) :
  readable (ingestion_log st) → 0 < limit →
  ∃ answer,
    fst (IngestionLogger.get_ingestion_history limit
           (snd (IngestionLogger._append_to_log entry st)))
    = Ok answer
    ∧ last answer = Some entry.
Proof.
  intros Hr Hpos. rewrite append_to_log_eval, get_ingestion_history_eval.
  cbn [fst snd]. eexists; split; [reflexivity|].
  unfold history. cbn. rewrite entries_append by done.
  unfold IngestionLogger.last_entries.
  destruct (Z.eqb_spec limit 0) as [->|_]; [lia|].
  destruct (Z.ltb_spec 0 limit) as [_|?]; [|lia].
  rewrite length_app. cbn [length].
  rewrite drop_app_le by lia. apply last_snoc.
Qed.

Lemma newest_entry_is_last_witness :
  let entry := ingestion_start "ingestion_20240501_100000" "2024-05-01T10:00:00" 0 in
  ∃ answer,
    fst (IngestionLogger.get_ingestion_history 1
           (snd (IngestionLogger._append_to_log entry
                   (exec Scenario.fresh Scenario.demo_run))))
    = Ok answer
    ∧ last answer = Some entry.
Proof.
  intros entry.
  apply (newest_entry_is_last entry 1 (exec Scenario.fresh Scenario.demo_run));
    [vm_compute; discriminate | reflexivity].
Defined.

(** ** More about a run *)

Section RunFacts.
Import DataIngestionPipeline.
Variable w : World.

Lemma tally_files_clock session_id files : ∀ t st st',
  now_calls st = now_calls st' →
  tally_files w files t session_id st = tally_files w files t session_id st'.
Proof.
  induction files as [|p rest IH]; intros t st st' Hn; cbn [tally_files]; [done|].
  rewrite Hn. apply IH. by rewrite !now_calls_after_file, Hn.
Qed.


Lemma tally_files_closed_form session_id files : ∀ t st,
  processed (tally_files w files t session_id st)
  = (processed t
     + length (filter (fun p => extraction_error w p = None) files))%nat
  ∧ failed (tally_files w files t session_id st)
    = (failed t
       + length (filter (fun p => extraction_error w p ≠ None) files))%nat.
Proof.
  induction files as [|p rest IH]; intros t st; cbn [tally_files].
  - cbn. lia.
  - destruct (IH (tally_step p (record_of w p (now_calls st)) t)
                (after_file w session_id p st)) as [-> ->].
    rewrite !filter_cons. unfold tally_step.
    rewrite record_of_has_error.
    destruct (extraction_error w p) as [e|] eqn:He.
    + rewrite bool_decide_eq_true_2 by eauto. cbn.
      rewrite decide_False by done. rewrite decide_True by done. cbn. lia.
    + rewrite bool_decide_eq_false_2 by (intros [? ?]; discriminate). cbn.
      rewrite decide_True by done. rewrite decide_False by (intros H; by apply H).
      cbn. lia.
Qed.

Lemma readable_metadata_after_files session_id files : ∀ st,
  readable (metadata_file st) →
  readable (metadata_file (after_files w session_id files st)).
Proof.
  intros st Hr.
  by destruct (strip_table_after_files w session_id files st Hr).
Qed.




End RunFacts.

(** X18. What a run returns does not depend on what the log directory
    holds: two runs in the same world that start at the same clock reading
    return the same summary, whether the documents are missing, parsed or
    unreadable.  A failing log store never changes a result or a count. *)
Theorem summary_independent_of_log_store
    (w : World) (watch_directories : list string) (recursive : bool)
    (st st' : State) :
  now_calls st = now_calls st' →
  fst (DataIngestionPipeline.run_ingestion w watch_directories recursive st)
  = fst (DataIngestionPipeline.run_ingestion w watch_directories recursive st').
Proof.
  intros Hn. rewrite !run_ingestion_eval. cbn [fst]. f_equal.
  unfold summary_of, session_of. rewrite Hn.
  destruct (detected w watch_directories recursive) as [files|e]; [|done].
  cbn zeta. erewrite tally_files_clock; [reflexivity|].
  cbn. by rewrite Hn.
Qed.

Lemma summary_independent_of_log_store_witness :
  fst (DataIngestionPipeline.run_ingestion Scenario.demo [Scenario.incoming]
         false Scenario.fresh)
  = fst (DataIngestionPipeline.run_ingestion Scenario.demo [Scenario.incoming]
           false Scenario.damaged).
Proof.
  apply (summary_independent_of_log_store Scenario.demo [Scenario.incoming]
           false Scenario.fresh Scenario.damaged).
  reflexivity.
Defined.







(** X22. The counts of a run are decided file by file, by the world
    alone: processed_count is the number of detected files for which
    [stat] answers and a hasher can be made, failed_count the number of
    the others.  No file's outcome depends on another file of the run. *)
Theorem counts_closed_form
    (w : World) (watch_directories : list string) (recursive : bool)
    (files : list string) (st : State) :
  FileDetector.detect_files w (FileDetector.init watch_directories) recursive
  = Ok files →
  ∃ s,
    fst (DataIngestionPipeline.run_ingestion w watch_directories recursive st)
    = Ok s
    ∧ DataIngestionPipeline.processed_count s
      = length (filter (fun p => extraction_error w p = None) files)
    ∧ DataIngestionPipeline.failed_count s
      = length (filter (fun p => extraction_error w p ≠ None) files).
Proof.
  intros Hd. rewrite run_ingestion_eval. cbn [fst].
  eexists; split; [reflexivity|].
  unfold summary_of, detected. rewrite Hd. cbn.
  match goal with
  | |- context [tally_files w files tally0 ?sid ?st1] =>
      destruct (tally_files_closed_form w sid files tally0 st1) as [-> ->]
  end.
  done.
Qed.

Lemma counts_closed_form_witness :
  ∃ s,
    fst (DataIngestionPipeline.run_ingestion Scenario.vanished
           [Scenario.incoming] false Scenario.fresh)
    = Ok s
    ∧ DataIngestionPipeline.processed_count s
      = length (filter (fun p => extraction_error Scenario.vanished p = None)
                  [Scenario.gone_csv])
    ∧ DataIngestionPipeline.failed_count s
      = length (filter (fun p => extraction_error Scenario.vanished p ≠ None)
                  [Scenario.gone_csv]).
Proof.
  apply (counts_closed_form Scenario.vanished [Scenario.incoming] false
           [Scenario.gone_csv] Scenario.fresh).
  reflexivity.
Defined.

Lemma checksum_of_identical_files_witness :
  let digest :=
    JStr (Scenario.toy_digest (MetadataExtractor.chunks 4096 Scenario.a_csv_content)) in
  MetadataExtractor._calculate_checksum Examples.twins Scenario.a_csv = Ok digest
  ∧ MetadataExtractor._calculate_checksum Examples.twins Examples.copy_csv
    = MetadataExtractor._calculate_checksum Examples.twins Scenario.a_csv
  ∧ ∃ rp rq,
      fst (MetadataExtractor.extract_metadata Examples.twins Scenario.a_csv
             Scenario.fresh) = Ok rp
      ∧ fst (MetadataExtractor.extract_metadata Examples.twins Examples.copy_csv
               Scenario.damaged) = Ok rq
      ∧ rp !! "checksum" = Some digest
      ∧ rq !! "checksum" = rp !! "checksum".
Proof.
  intros digest.
  apply (checksum_of_identical_files Examples.twins Scenario.a_csv
           Examples.copy_csv Scenario.a_csv_content Scenario.toy_digest
           {| st_size := 20; st_ctime := "2024-04-30T09:00:00";
              st_mtime := "2024-04-30T09:30:00" |}
           {| st_size := 20; st_ctime := "2024-04-30T09:00:00";
              st_mtime := "2024-04-30T09:30:00" |}
           Scenario.fresh Scenario.damaged); reflexivity.
Defined.

Lemma excel_sheets_all_or_nothing_witness :
  MetadataExtractor._extract_excel_metadata Examples.workbook Examples.book_xlsx
  = list_to_map
      [("sheet_count", JInt 2);
       ("sheet_names", JList [JStr "Q1"; JStr "Q2"]);
       ("sheets_info",
         JDict [("Q1", sheet_info (Examples.quarter 5) (Examples.quarter 12));
                ("Q2", sheet_info (Examples.quarter 5) (Examples.quarter 40))])]
  ∧ ∃ e,
      MetadataExtractor._extract_excel_metadata Examples.torn_workbook
        Examples.book_xlsx
      = {["excel_error" := JStr e]}.
Proof.
  assert (NoDup ["Q1"; "Q2"]) as Hnd.
  { apply (bool_decide_unpack (NoDup ["Q1"; "Q2"])). vm_compute. exact I. }
  destruct (excel_sheets_all_or_nothing Examples.workbook Examples.book_xlsx
              ["Q1"; "Q2"] Examples.sample_of Examples.full_of eq_refl Hnd)
    as [Hall _].
  destruct (excel_sheets_all_or_nothing Examples.torn_workbook Examples.book_xlsx
              ["Q1"; "Q2"] Examples.sample_of Examples.full_of eq_refl Hnd)
    as [_ Hnone].
  split.
  - apply Hall. intros sheet Hin. split; reflexivity.
  - apply (Hnone "Q2").
    + right. left.
    + right. by eexists.
Defined.

(** ** The HTTP endpoints *)

(** X23. POST /trigger-ingestion never answers 500: it runs the pipeline
    over the upload directory without recursion and always returns
    success = true with the summary of the run - also when the run failed
    as a whole, in which case the summary inside carries the error and
    zero counts. *)
Theorem trigger_ingestion_always_succeeds (w : World) (st : State) :
  ∃ s st',
    Api.trigger_ingestion w st
    = (Ok (Api.http_200 {| Api.success := true; Api.payload := s |}), st')
    ∧ DataIngestionPipeline.run_ingestion w ["data/incoming"] false st
      = (Ok s, st')
    ∧ ∀ e,
        FileDetector.detect_files w ["data/incoming"] false = Raise e →
        DataIngestionPipeline.error s = Some e
        ∧ DataIngestionPipeline.total_files s = 0%nat
        ∧ DataIngestionPipeline.results s = None.
Proof.
  unfold Api.trigger_ingestion, Api.UPLOAD_DIR, try_catch, bind, ret.
  rewrite run_ingestion_eval. eexists _, _.
  split; [reflexivity|]. split; [reflexivity|].
  intros e He. unfold summary_of, detected. cbn [FileDetector.init].
  rewrite He. by repeat split.
Qed.

Lemma trigger_ingestion_always_succeeds_witness :
  ∃ s st',
    Api.trigger_ingestion Scenario.forbidden Scenario.fresh
    = (Ok (Api.http_200 {| Api.success := true; Api.payload := s |}), st')
    ∧ DataIngestionPipeline.error s = Some "[Errno 13] Permission denied"
    ∧ DataIngestionPipeline.total_files s = 0%nat
    ∧ DataIngestionPipeline.results s = None.
Proof.
  destruct (trigger_ingestion_always_succeeds Scenario.forbidden Scenario.fresh)
    as (s & st' & Hanswer & _ & Herr).
  exists s, st'. split; [exact Hanswer|].
  apply Herr. reflexivity.
Defined.

(** X24. GET /metadata and GET /logs answer 500 only when the logger
    cannot be constructed, with the message of that failure; otherwise
    they answer success = true with the whole table and with the last
    [limit] entries, change nothing, and return an empty table or an empty
    list when the document is missing or cannot be parsed. *)
Theorem read_endpoints
    (new_logger : result unit) (limit : Z) (st : State) :
  match new_logger with
  | Ok _ =>
      Api.get_metadata new_logger st
      = (Ok (Api.http_200
               {| Api.success := true;
                  Api.payload := IngestionLogger.whole_table (table st) |}),
         st)
      ∧ Api.get_ingestion_logs new_logger limit st
        = (Ok (Api.http_200
                 {| Api.success := true;
                    Api.payload :=
                      IngestionLogger.last_entries limit (history st) |}),
           st)
      ∧ (metadata_file st = Missing ∨ metadata_file st = Malformed →
         table st = ∅)
      ∧ (ingestion_log st = Missing ∨ ingestion_log st = Malformed →
         IngestionLogger.last_entries limit (history st) = [])
  | Raise e =>
      Api.get_metadata new_logger st
      = (Ok (Api.http_500 ("Failed to get metadata: " +:+ e)), st)
      ∧ Api.get_ingestion_logs new_logger limit st
        = (Ok (Api.http_500 ("Failed to get logs: " +:+ e)), st)
  end.
Proof.
  unfold Api.get_metadata, Api.get_ingestion_logs, try_catch, bind, lift, ret.
  destruct new_logger as [[]|e]; [|done].
  rewrite get_file_metadata_eval, get_ingestion_history_eval. cbn.
  split; [done|]. split; [done|]. split.
  - unfold table. by intros [-> | ->].
  - unfold history, IngestionLogger.last_entries.
    intros [-> | ->]; cbn; repeat case_match; by rewrite ?drop_nil.
Qed.

(** ** The shapes of a record *)

Ltac dom_of_literal :=
  cbn [list_to_map foldr list_to_set];
  rewrite ?dom_insert_L, ?dom_singleton_L, ?dom_empty_L; reflexivity.

Ltac shape_at i :=
  apply (list_elem_of_lookup_2 format_shapes i); cbn; f_equal;
  unfold csv_fields; dom_of_literal.

Lemma csv_metadata_shape w file_path :
  dom (MetadataExtractor._extract_csv_metadata w file_path) ∈ format_shapes.
Proof.
  unfold MetadataExtractor._extract_csv_metadata, try_except, result_bind.
  destruct (read_csv w file_path 5); [|shape_at 2%nat].
  destruct (open_rb w file_path); [shape_at 1%nat | shape_at 2%nat].
Qed.

Lemma excel_metadata_shape w file_path :
  dom (MetadataExtractor._extract_excel_metadata w file_path) ∈ format_shapes.
Proof.
  unfold MetadataExtractor._extract_excel_metadata, try_except, result_bind.
  destruct (excel_sheet_names w file_path); [|shape_at 4%nat].
  destruct (MetadataExtractor.excel_sheets_info w file_path _ _);
    [shape_at 3%nat | shape_at 4%nat].
Qed.

Lemma json_metadata_shape w file_path :
  dom (MetadataExtractor._extract_json_metadata w file_path) ∈ format_shapes.
Proof.
  unfold MetadataExtractor._extract_json_metadata, try_except, result_bind.
  destruct (json_load w file_path) as [[| | | | | |]|]; cbn beta iota;
    [shape_at 7%nat | shape_at 7%nat | shape_at 7%nat | shape_at 7%nat
    | shape_at 7%nat | shape_at 5%nat | shape_at 6%nat | shape_at 8%nat].
Qed.

Lemma parquet_metadata_shape w file_path :
  dom (MetadataExtractor._extract_parquet_metadata w file_path) ∈ format_shapes.
Proof.
  unfold MetadataExtractor._extract_parquet_metadata, try_except, result_bind.
  destruct (read_parquet w file_path); [shape_at 1%nat | shape_at 9%nat].
Qed.

Lemma format_metadata_shape w file_path :
  dom (MetadataExtractor.format_metadata w file_path) ∈ format_shapes.
Proof.
  unfold MetadataExtractor.format_metadata.
  repeat case_match;
    first [apply csv_metadata_shape | apply excel_metadata_shape
          | apply json_metadata_shape | apply parquet_metadata_shape
          | shape_at 0%nat].
Qed.

(** X25. The fields of a record are one of a few fixed sets.  A failed
    extraction has exactly file_path, error and extraction_time.  A
    successful one has the eight base fields and, beside them, the fields
    of one format branch: nothing, the data fields of the branch, or the
    single error field of the branch - never data fields together with an
    error field, and never a top-level 'error'. *)
Theorem record_shapes (w : World) (file_path : string) (st : State) :
  ∃ record,
    fst (MetadataExtractor.extract_metadata w file_path st) = Ok record
    ∧ (dom record = ({["file_path"; "error"; "extraction_time"]} : gset string)
       ∨ ∃ shape, shape ∈ format_shapes
                  ∧ dom record = base_fields ∪ shape
                  ∧ "error" ∉ dom record).
Proof.
  rewrite extract_metadata_eval. cbn [fst]. eexists; split; [reflexivity|].
  pose proof (record_of_cases w file_path (now_calls st)) as H.
  pose proof (record_of_has_error w file_path (now_calls st)) as Herr.
  destruct (extraction_error w file_path) as [e|].
  - left. rewrite H. apply error_record_keys.
  - right. destruct H as (s & c & _ & _ & Hrec).
    exists (dom (MetadataExtractor.format_metadata w file_path)).
    split; [apply format_metadata_shape|]. split.
    + rewrite Hrec. unfold dict_update. rewrite dom_union_L.
      assert (dom (MetadataExtractor.base_metadata file_path (st_size s)
                     (st_ctime s) (st_mtime s) c
                     (isoformat (clock w (now_calls st)))) = base_fields) as ->.
      { unfold MetadataExtractor.base_metadata, base_fields. dom_of_literal. }
      apply (comm_L (∪)).
    + rewrite bool_decide_eq_false_2 in Herr by (intros [? ?]; discriminate).
      unfold has_key in Herr. rewrite elem_of_dom.
      destruct (record_of w file_path (now_calls st) !! "error"); [done|].
      by intros [? ?].
Qed.
